(** * infernyx.database: persisting map/reduce results

    A shallow embedding of [infernyx/database.py]: the keyset resolver
    ([_get_columns]), the stream partitioner ([_build_datafiles]), the cloud
    stager ([_upload_s3]), the bulk loader ([_insert_datafiles]), the two
    pipelines ([insert_postgres], [insert_redshift]) and the denylist reader
    ([get_blacklist_ips]).

    Python values are modelled by the inductive [pyval], dictionaries by
    stdpp's [gmap], exceptions by a result type, and the file system, the
    database, the object store and the log by an explicit [world] threaded
    through a small state-and-exception monad.  What the module obtains from
    other libraries (temporary names, JSON encoding, SQL execution, uploads,
    instance metadata) is collected in the record [env]. *)

From Stdlib Require Import ZArith Lia.
From stdpp Require Import base option list gmap sets strings stringmap pretty.

Set Default Proof Using "Type".

(** ** Python values and exceptions *)

(** The values that occur in keys and value tuples of the job's output. *)
Inductive pyval :=
| PNone
| PInt (z : Z)
| PStr (s : string).

#[global] Instance pyval_eq_dec : EqDecision pyval.
Proof. solve_decision. Defined.

Definition pyval_enc (v : pyval) : unit + (Z + string) :=
  match v with
  | PNone => inl ()
  | PInt z => inr (inl z)
  | PStr s => inr (inr s)
  end.

Definition pyval_dec (x : unit + (Z + string)) : pyval :=
  match x with
  | inl _ => PNone
  | inr (inl z) => PInt z
  | inr (inr s) => PStr s
  end.

#[global] Instance pyval_countable : Countable pyval.
Proof. by apply (inj_countable' pyval_enc pyval_dec); intros []. Defined.

(** Python truth value of an optional string: [None] and [''] are false. *)
Definition truthy (v : option string) : bool :=
  match v with
  | Some s => negb (String.eqb s EmptyString)
  | None => false
  end.

Inductive exn_class :=
| KeyError
| IndexError
| TypeError
| AttributeError
| IOError
| OSError
| DatabaseError
| S3ResponseError.

Record exn := Exn { exn_cls : exn_class; exn_message : string }.

#[global] Instance exn_class_eq_dec : EqDecision exn_class.
Proof. solve_decision. Defined.

#[global] Instance exn_eq_dec : EqDecision exn.
Proof. solve_decision. Defined.

Inductive result (A : Type) :=
| Ok (a : A)
| Raise (e : exn).

Arguments Ok {A} a.
Arguments Raise {A} e.

(** ** Keyset definitions and [DataFile] *)

(** [column_mappings] is [None] when the key is absent from the keyset (or
    bound to [None]); a mapped value is [None] or a string. *)
Record keyset := Keyset {
  table : string;
  key_parts : list string;
  value_parts : list string;
  column_mappings : option (gmap string (option string))
}.

(** The named tuple [DataFile(tempfile, s3, tablename, columns)]; [s3] is a
    pair whose components may be [None]. *)
Record DataFile := mkDataFile {
  tempfile : string;
  s3 : option string * option string;
  tablename : string;
  columns : string
}.

#[global] Instance DataFile_eq_dec : EqDecision DataFile.
Proof. solve_decision. Defined.

(** ** Keyset resolver *)

Module Columns.

(** One of the two [for] loops of [_get_columns]: a part with a mapping is
    renamed when the mapped value is true and left out otherwise; a part
    without a mapping is appended as it is. *)
Fixpoint mapped_parts (cm : gmap string (option string)) (parts : list string)
  : list string :=
  match parts with
  | [] => []
  | p :: ps =>
      match cm !! p with
      | Some v =>
          if truthy v then default p v :: mapped_parts cm ps
          else mapped_parts cm ps
      | None => p :: mapped_parts cm ps
      end
  end.

(** [keyset.get('column_mappings', None)] as a condition: an absent, [None]
    or empty dictionary is false. *)
Definition mappings_given (ks : keyset) : option (gmap string (option string)) :=
  match column_mappings ks with
  | Some cm => if decide (cm = ∅) then None else Some cm
  | None => None
  end.

Definition _get_columns (ks : keyset) : list string :=
  let '(key_columns, value_columns) :=
    match mappings_given ks with
    | Some cm => (mapped_parts cm (key_parts ks), mapped_parts cm (value_parts ks))
    | None => (key_parts ks, value_parts ks)
    end in
  drop 1 key_columns ++ value_columns.

(** The resolver as the design text words it: the partition discriminator
    is skipped first, then each remaining key part and each value part is
    renamed, dropped or kept. *)
Definition resolve_name (ks : keyset) (p : string) : list string :=
  match column_mappings ks with
  | Some cm =>
      match cm !! p with
      | Some v => if truthy v then [default p v] else []
      | None => [p]
      end
  | None => [p]
  end.

Definition spec_columns (ks : keyset) : list string :=
  (drop 1 (key_parts ks) ≫= resolve_name ks) ++ (value_parts ks ≫= resolve_name ks).

(** The discriminator is suppressed: it is mapped to a false value by a
    mapping dictionary that is in force. *)
Definition discriminator_suppressed (ks : keyset) : bool :=
  match mappings_given ks, key_parts ks with
  | Some cm, d :: _ =>
      match cm !! d with
      | Some v => negb (truthy v)
      | None => false
      end
  | _, _ => false
  end.

End Columns.

(** ** The world the module acts on *)

Inductive severity := INFO | ERROR.

(** What the module does to its surroundings, in the order it does it. *)
Inductive event :=
| EvLog (sev : severity) (jid msg : string)
| EvOpen (path : string)
| EvChmod (path : string)
| EvWrite (path line : string)
| EvClose (path : string)
| EvUnlink (path : string)
| EvPut (bucket : option string) (key : string)
| EvConnect
| EvExecute (command : string)
| EvCommit
| EvRollback
| EvCursorClose
| EvConnectionClose.

#[global] Instance severity_eq_dec : EqDecision severity.
Proof. solve_decision. Defined.

#[global] Instance event_eq_dec : EqDecision event.
Proof. solve_decision. Defined.

(** A row of a [DictCursor] is a dictionary from column names to values, the
    contents of the database a dictionary from table names to rows, and the
    local files a dictionary from paths to the lines written (what the gzip
    stream decompresses to). *)

(** - [fs]: the local file system;
    - [db]: the committed contents of the database;
    - [session]: [Some t] while a connection is open, [t] being the contents
      as its transaction sees them;
    - [bucket_store]: the objects of the object store, by bucket and key;
    - [trace]: the events so far, oldest first. *)
Record world := World {
  fs : gmap string (list string);
  db : gmap string (list (gmap string pyval));
  session : option (gmap string (list (gmap string pyval)));
  bucket_store : gmap (option string * string) (list string);
  trace : list event
}.

Record conn_params := ConnParams {
  host : string;
  port : option Z;
  database : option string;
  user : string;
  password : option string
}.

(** The job's [params] object: the keyset registry, and the attribute
    [clean_db_files] when the object has it. *)
Record params := Params {
  keysets : gmap pyval keyset;
  clean_db_files : option bool
}.

(** What the module takes from other libraries.
    - [mktemp files prefix]: [tempfile.mktemp(prefix=prefix, dir='/tmp')]
      when [files] exist;
    - [dumps]: [ujson.dumps] of a dictionary;
    - [connect]: [Some e] when [psycopg2.connect] raises [e];
    - [execute command files objects view]: what [cursor.execute] does to
      the transaction's view of the database, given the local files and the
      stored objects a statement may read, and the rows the cursor then
      yields (reading one may raise);
    - [str_exc], [format_exc]: [str(e)] and [traceback.format_exc];
    - [compute_md5]: the checksum of a file's contents;
    - [s3_put bucket key content md5]: [Some e] when connecting to the store
      or [set_contents_from_filename] raises [e];
    - [instance_credentials]: access key, secret key and token of the first
      credential set of the instance metadata, or the error of the lookup. *)
Record env := Env {
  mktemp : gmap string (list string) → string → string;
  dumps : gmap string pyval → string;
  connect : conn_params → option exn;
  execute : string → gmap string (list string) → gmap (option string * string) (list string) →
            gmap string (list (gmap string pyval)) →
            result (gmap string (list (gmap string pyval)) * list (result (gmap string pyval)));
  str_exc : exn → string;
  format_exc : exn → string;
  compute_md5 : list string → string;
  s3_put : option string → string → list string → string → option exn;
  instance_credentials : result (string * string * string)
}.

(** ** A state and exception monad over the world *)

Definition M (A : Type) : Type := world → world * result A.

Definition ret {A} (a : A) : M A := λ w, (w, Ok a).

Definition raise {A} (e : exn) : M A := λ w, (w, Raise e).

Definition bind {A B} (m : M A) (k : A → M B) : M B :=
  λ w, match m w with
       | (w', Ok a) => k a w'
       | (w', Raise e) => (w', Raise e)
       end.

Declare Scope py_scope.
Delimit Scope py_scope with py.
Notation "'let*' x ':=' m 'in' k" := (bind m (λ x, k))
  (at level 10, x name, m at level 100, k at level 200) : py_scope.
Notation "'let*' ' x ':=' m 'in' k" := (bind m (λ x, k))
  (at level 10, x strict pattern, m at level 100, k at level 200) : py_scope.
Notation "m ;;; k" := (bind m (λ _, k))
  (at level 100, right associativity) : py_scope.
Open Scope py_scope.

(** [try: body / except Exception as e: handler e]. *)
Definition try_except {A} (body : M A) (handler : exn → M A) : M A :=
  λ w, match body w with
       | (w', Ok a) => (w', Ok a)
       | (w', Raise e) => handler e w'
       end.

(** [try: body / finally: final]: [final] runs on both outcomes; an error it
    raises itself replaces the outcome of [body]. *)
Definition try_finally {A} (body : M A) (final : M unit) : M A :=
  λ w, match body w with
       | (w', r) =>
           match final w' with
           | (w'', Ok _) => (w'', r)
           | (w'', Raise e) => (w'', Raise e)
           end
       end.

(** [for x in l: body x]. *)
Fixpoint for_each {A} (l : list A) (body : A → M unit) : M unit :=
  match l with
  | [] => ret ()
  | x :: l' => body x ;;; for_each l' body
  end.

(** A [for] loop whose body updates local variables [S]. *)
Fixpoint for_fold {A S} (l : list A) (body : S → A → M S) (s : S) : M S :=
  match l with
  | [] => ret s
  | x :: l' => let* s' := body s x in for_fold l' body s'
  end.

Definition modify (f : world → world) : M unit := λ w, (f w, Ok ()).

Definition emit (ev : event) : M unit :=
  modify (λ w, World (fs w) (db w) (session w) (bucket_store w) (trace w ++ [ev])).

Definition set_fs (f : gmap string (list string)) (w : world) : world :=
  World f (db w) (session w) (bucket_store w) (trace w).

Definition set_db (d : gmap string (list (gmap string pyval))) (w : world) : world :=
  World (fs w) d (session w) (bucket_store w) (trace w).

Definition set_session (s : option (gmap string (list (gmap string pyval)))) (w : world) : world :=
  World (fs w) (db w) s (bucket_store w) (trace w).

Definition set_bucket_store (b : gmap (option string * string) (list string)) (w : world) : world :=
  World (fs w) (db w) (session w) b (trace w).

(** [_log(jid, msg, severity)]. *)
Definition _log (jid msg : string) (sev : severity) : M unit := emit (EvLog sev jid msg).

(** The line feed ['\n']. *)
Definition newline : string := String (Ascii.ascii_of_nat 10) EmptyString.

(** ['%s' % v] for an optional string. *)
Definition str_opt (o : option string) : string := default "None" o.

(** ** Stream partitioner *)

(** A record of the job's output: [(key, value)], both sequences. *)
Definition record : Type := list pyval * list pyval.

(** [dict(pairs)]: a later pair with the same key replaces an earlier one. *)
Definition py_dict (pairs : list (string * pyval)) : gmap string pyval :=
  fold_left (λ d kv, <[kv.1 := kv.2]> d) pairs ∅.

(** [zip(xs, ys)] stops with the shorter of the two. *)
Fixpoint py_zip {A B} (xs : list A) (ys : list B) : list (A * B) :=
  match xs, ys with
  | x :: xs', y :: ys' => (x, y) :: py_zip xs' ys'
  | _, _ => []
  end.

(** [dict(zip(columns, tuple(key[1:]) + tuple(value)))]. *)
Definition field_map (cols : list string) (key value : list pyval) : gmap string pyval :=
  py_dict (py_zip cols (drop 1 key ++ value)).

(** The local variables of [_build_datafiles]. *)
Record locals := Locals {
  pivot : pyval;
  datafiles : list DataFile;
  cur_columns : list string;
  total_lines : nat;
  tmp : option string
}.

(** [key[0]]. *)
Definition key0 (key : list pyval) : M pyval :=
  match key with
  | k :: _ => ret k
  | [] => raise (Exn IndexError "list index out of range")
  end.

(** [params.keysets[pivot]]. *)
Definition keyset_of (p : params) (k : pyval) : M keyset :=
  match keysets p !! k with
  | Some ks => ret ks
  | None => raise (Exn KeyError "keysets")
  end.

(** The prefix handed to [tempfile.mktemp] is concatenated with the
    candidate name, which takes a string. *)
Definition mktemp_prefix (k : pyval) : M string :=
  match k with
  | PStr s => ret s
  | _ => raise (Exn TypeError "unsupported operand type(s) for +")
  end.

(** [gzip.open(name, 'wb', 1)]: the file is created, or emptied when it
    exists. *)
Definition gzip_open (name : string) : M unit :=
  modify (λ w, set_fs (<[name := []]> (fs w)) w) ;;; emit (EvOpen name).

(** [tmp.write(line)] on an open file. *)
Definition file_write (name line : string) : M unit :=
  modify (λ w, set_fs (<[name := default [] (fs w !! name) ++ [line]]> (fs w)) w) ;;;
  emit (EvWrite name line).

(** [if tmp: tmp.close()]. *)
Definition close_if_open (t : option string) : M unit :=
  match t with
  | Some name => emit (EvClose name)
  | None => ret ()
  end.

Section Pipelines.

Context (E : env).

(** The body of [if pivot != key[0]:]. *)
Definition open_datafile (p : params) (job_id : string) (k : pyval) (st : locals)
  : M locals :=
  let* ks := keyset_of p k in
  close_if_open (tmp st) ;;;
  let* prefix := mktemp_prefix k in
  let* tmp_file_name := (λ w, (w, Ok (mktemp E (fs w) prefix))) in
  gzip_open tmp_file_name ;;;
  emit (EvChmod tmp_file_name) ;;;
  let cols := Columns._get_columns ks in
  _log job_id ("Saving " +:+ table ks +:+ " data in " +:+ tmp_file_name) INFO ;;;
  ret (Locals k
         (datafiles st ++ [mkDataFile tmp_file_name (None, None) (table ks)
                             (String.concat "," cols)])
         cols (total_lines st) (Some tmp_file_name)).

(** One line of a batch file. *)
Definition serialize (cols : list string) (key value : list pyval) : string :=
  dumps E (field_map cols key value) +:+ newline.

(** One turn of the loop of [_build_datafiles]. *)
Definition build_step (p : params) (job_id : string) (st : locals) (r : record)
  : M locals :=
  let '(key, value) := r in
  let* k := key0 key in
  let* st := (if decide (pivot st ≠ k) then open_datafile p job_id k st else ret st) in
  match tmp st with
  | None => raise (Exn AttributeError "'NoneType' object has no attribute 'write'")
  | Some name =>
      file_write name (serialize (cur_columns st) key value) ;;;
      ret (Locals (pivot st) (datafiles st) (cur_columns st) (S (total_lines st)) (tmp st))
  end.

Definition build_init : locals := Locals PNone [] [] 0 None.

Definition _build_datafiles (disco_iter : list record) (p : params) (job_id : string)
  : M (list DataFile * nat) :=
  let* st := for_fold disco_iter (build_step p job_id) build_init in
  close_if_open (tmp st) ;;;
  ret (datafiles st, total_lines st).

(** *** Cloud stager *)

(** [open(tmpfile)] and reading it. *)
Definition read_file (path : string) : M (list string) :=
  λ w, match fs w !! path with
       | Some content => (w, Ok content)
       | None => (w, Raise (Exn IOError ("No such file or directory: " +:+ path)))
       end.

(** [k.set_contents_from_filename(tmpfile, md5=md5, replace=True)] on a key
    of the bucket [bucket_name] (the bucket is not validated). *)
Definition set_contents (bucket_name : option string) (key : string)
    (content : list string) (md5 : string) : M unit :=
  emit (EvPut bucket_name key) ;;;
  match s3_put E bucket_name key content md5 with
  | Some e => raise e
  | None =>
      modify (λ w, set_bucket_store (<[(bucket_name, key) := content]> (bucket_store w)) w)
  end.

(** One turn of the loop of [_upload_s3]. *)
Definition upload_step (job_id : string) (bucket_name : option string)
    (rval : list DataFile) (df : DataFile) : M (list DataFile) :=
  let* content := read_file (tempfile df) in
  let md5 := compute_md5 E content in
  let key := job_id +:+ "-" +:+ tempfile df in
  set_contents bucket_name key content md5 ;;;
  _log job_id ("->S3 " +:+ str_opt bucket_name +:+ "/" +:+ key) INFO ;;;
  ret (rval ++ [mkDataFile (tempfile df) (bucket_name, Some key) (tablename df) (columns df)]).

Definition _upload_s3 (dfs : list DataFile) (job_id : string) (bucket_name : option string)
  : M (list DataFile) :=
  for_fold dfs (upload_step job_id bucket_name) [].

(** *** Credential provisioner *)

Definition _get_sts_credentials : M string :=
  match instance_credentials E with
  | Ok (access_key, secret_key, token) =>
      ret ("credentials 'aws_access_key_id=" +:+ access_key +:+
           ";aws_secret_access_key=" +:+ secret_key +:+
           ";token=" +:+ token +:+ "'")
  | Raise e => raise e
  end.

(** *** Database connection *)

(** [_connect]: one connection and its cursor; the transaction starts from
    the committed contents. *)
Definition _connect (cp : conn_params) : M unit :=
  match connect E cp with
  | Some e => raise e
  | None => modify (λ w, set_session (Some (db w)) w) ;;; emit EvConnect
  end.

(** [cursor.execute(command)]. *)
Definition cursor_execute (command : string) : M (list (result (gmap string pyval))) :=
  emit (EvExecute command) ;;;
  λ w, match session w with
       | None => (w, Raise (Exn DatabaseError "connection already closed"))
       | Some view =>
           match execute E command (fs w) (bucket_store w) view with
           | Ok (t, rows) => (set_session (Some t) w, Ok rows)
           | Raise e => (w, Raise e)
           end
       end.

Definition connection_commit : M unit :=
  emit EvCommit ;;;
  modify (λ w, match session w with Some t => set_db t w | None => w end).

Definition connection_rollback : M unit :=
  emit EvRollback ;;;
  modify (λ w, match session w with Some _ => set_session (Some (db w)) w | None => w end).

Definition cursor_close : M unit := emit EvCursorClose.

(** [connection.close()]: what was not committed is lost. *)
Definition connection_close : M unit :=
  emit EvConnectionClose ;;; modify (set_session None).

(** *** Bulk loader *)

(** The source of a [COPY]: the staged object when both parts of the
    reference are true, the local file otherwise. *)
Definition copy_source (df : DataFile) : string :=
  let '(s3_bucket, s3_key) := s3 df in
  if truthy s3_bucket && truthy s3_key
  then "s3://" +:+ str_opt s3_bucket +:+ "/" +:+ str_opt s3_key
  else tempfile df.

Definition copy_command (df : DataFile) (extras : string) : string :=
  "COPY " +:+ tablename df +:+ " (" +:+ columns df +:+ ") FROM '" +:+ copy_source df +:+
  "' WITH " +:+ extras +:+ " JSON 'auto' TRUNCATECOLUMNS GZIP".

(** [os.unlink(path)]. *)
Definition os_unlink (path : string) : M unit :=
  emit (EvUnlink path) ;;;
  λ w, match fs w !! path with
       | Some _ => (set_fs (delete path (fs w)) w, Ok ())
       | None => (w, Raise (Exn OSError ("No such file or directory: " +:+ path)))
       end.

(** [repr] of an optional string and of the pair [s3]. *)
Definition repr_opt (o : option string) : string :=
  match o with
  | Some s => "'" +:+ s +:+ "'"
  | None => "None"
  end.

Definition repr_s3 (r : option string * option string) : string :=
  "(" +:+ repr_opt r.1 +:+ ", " +:+ repr_opt r.2 +:+ ")".

(** [getattr(params, 'clean_db_files', True)]. *)
Definition clean_requested (p : params) : bool := default true (clean_db_files p).

(** The [try] statement inside the [finally] clause, for one batch file. *)
Definition cleanup_file (p : params) (job_id : string) (df : DataFile) : M unit :=
  try_except
    (if clean_requested p then
       _log job_id ("Cleaning up tmp files: " +:+ tempfile df +:+ " (leaving s3: " +:+
                    repr_s3 (s3 df) +:+ ")") INFO ;;;
       os_unlink (tempfile df)
     else ret ())
    (λ e, _log job_id ("Error removing temp file: " +:+ str_exc E e +:+ ".") ERROR).

(** The [try] clause: one [COPY] for each batch file, in order. *)
Definition load_all (dfs : list DataFile) (job_id extras : string) : M unit :=
  for_each dfs (λ df,
    let command := copy_command df extras in
    _log job_id ("Executing: " +:+ command) INFO ;;;
    let* _ := cursor_execute command in ret ()).

(** The [except Exception as e] clause. *)
Definition load_failed (job_id : string) (e : exn) : M unit :=
  _log job_id ("Error persisting results. Rolling back: " +:+ exn_message e) ERROR ;;;
  _log job_id (format_exc E e) ERROR ;;;
  connection_rollback ;;;
  raise e.

(** The [else] clause. *)
Definition load_succeeded (p : params) (job_id : string) (total : nat) : M unit :=
  connection_commit ;;;
  _log job_id ("Processed " +:+ pretty total +:+ " records in " +:+
               pretty (size (keysets p)) +:+ " keysets.") INFO.

(** The [finally] clause ([sys.stdout.flush()] changes nothing here). *)
Definition load_finally (dfs : list DataFile) (p : params) (job_id : string) : M unit :=
  cursor_close ;;;
  connection_close ;;;
  for_each dfs (cleanup_file p job_id).

(** [try: body / except: handler / else: orelse]: an error of [orelse] is
    not handled. *)
Definition try_except_else {A B} (body : M A) (handler : exn → M B) (orelse : A → M B)
  : M B :=
  λ w, match body w with
       | (w', Ok a) => orelse a w'
       | (w', Raise e) => handler e w'
       end.

Definition _insert_datafiles (cp : conn_params) (dfs : list DataFile) (p : params)
    (job_id : string) (total : nat) (extras : string) : M unit :=
  _connect cp ;;;
  try_finally
    (try_except_else
       (load_all dfs job_id extras)
       (load_failed job_id)
       (λ _, load_succeeded p job_id total))
    (load_finally dfs p job_id).

(** *** The two pipelines *)

Definition insert_postgres (disco_iter : list record) (p : params) (job_id : string)
    (host : string) (database : option string) (user : string) (password : option string)
  : M nat :=
  let* '(dfs, total) := _build_datafiles disco_iter p job_id in
  _insert_datafiles (ConnParams host None database user password) dfs p job_id total
    EmptyString ;;;
  ret total.

Definition insert_redshift (disco_iter : list record) (p : params) (job_id : string)
    (cp : conn_params) (bucket_name : option string) : M nat :=
  let* '(dfs, total) := _build_datafiles disco_iter p job_id in
  let* dfs := _upload_s3 dfs job_id bucket_name in
  let* credentials := _get_sts_credentials in
  _insert_datafiles cp dfs p job_id total credentials ;;;
  ret total.

(** *** Denylist *)

(** What [get_blacklist_ips] returns: a set, or the empty dictionary. *)
Inductive ips :=
| IpSet (s : gset pyval)
| EmptyDict.

(** [row['ip']] for the next row of the cursor. *)
Definition row_ip (r : result (gmap string pyval)) : M pyval :=
  match r with
  | Ok fields =>
      match fields !! "ip" with
      | Some v => ret v
      | None => raise (Exn KeyError "ip")
      end
  | Raise e => raise e
  end.

(** [set(row['ip'] for row in cursor)], one row after the other. *)
Definition collect_step (acc : gset pyval) (r : result (gmap string pyval))
  : M (gset pyval) :=
  let* v := row_ip r in ret ({[v]} ∪ acc).

Definition collect_ips (rows : list (result (gmap string pyval))) : M (gset pyval) :=
  for_fold rows collect_step ∅.

Definition get_blacklist_ips (cp : conn_params) : M ips :=
  _connect cp ;;;
  try_finally
    (try_except
       (let* rows := cursor_execute "select distinct ip from blacklisted_ips" in
        let* s := collect_ips rows in
        ret (IpSet s))
       (λ _, ret EmptyDict))
    connection_close.

End Pipelines.

(** ** Vocabulary of the properties *)

(** The partition key of a record: the first element of its key. *)
Definition partition_key (r : record) : option pyval := head r.1.

Section Runs.

Context {A K : Type} `{EqDecision K} (f : A → K).

(** [glue x gs] puts [x] in front of the runs [gs]: into the first run when
    that one has the key of [x], as a run of its own otherwise. *)
Definition glue (x : A) (gs : list (list A)) : list (list A) :=
  match gs with
  | (y :: g) :: gs' => if decide (f x = f y) then (x :: y :: g) :: gs' else [x] :: (y :: g) :: gs'
  | _ => [[x]]
  end.

(** The maximal contiguous runs of elements with equal keys. *)
Fixpoint runs_on (l : list A) : list (list A) :=
  match l with
  | [] => []
  | x :: l' => glue x (runs_on l')
  end.

(** With [k] the key of the run being read, [continue k l] is what [l] adds
    to that run, and the runs that follow. *)
Definition continue (k : K) (l : list A) : list A * list (list A) :=
  match runs_on l with
  | (y :: g) :: gs => if decide (f y = k) then (y :: g, gs) else ([], (y :: g) :: gs)
  | _ => ([], [])
  end.

End Runs.

(** A record the partitioner can file: its partition key is a string with a
    keyset in the registry. *)
Definition registered (p : params) (r : record) : bool :=
  match partition_key r with
  | Some (PStr s) => bool_decide (is_Some (keysets p !! PStr s))
  | _ => false
  end.

(** The paths opened and closed by a list of events. *)
Definition opened (evs : list event) : list string :=
  omap (λ ev, match ev with EvOpen f => Some f | _ => None end) evs.

Definition closed (evs : list event) : list string :=
  omap (λ ev, match ev with EvClose f => Some f | _ => None end) evs.

Definition unlinked (evs : list event) : list string :=
  omap (λ ev, match ev with EvUnlink f => Some f | _ => None end) evs.

Definition executed (evs : list event) : list string :=
  omap (λ ev, match ev with EvExecute c => Some c | _ => None end) evs.

(** The partition key of the record before the next one: of the last record
    read, and [None] when none was read. *)
Definition previous_key (pre : list record) : pyval :=
  default PNone (last pre ≫= partition_key).

(** [mktemp] names a file that does not exist. *)
Definition mktemp_fresh (E : env) : Prop :=
  ∀ (files : gmap string (list string)) prefix, files !! mktemp E files prefix = None.

(** What a batch file holds for the run [g] of records: table, column list
    and lines, each line from the column list and the record's fields alone.
    The list is empty when the run has no keyset. *)
Definition batch_of (E : env) (p : params) (g : list record)
  : list (string * string * option (list string)) :=
  match head g ≫= partition_key with
  | Some k =>
      match keysets p !! k with
      | Some ks =>
          let cols := Columns._get_columns ks in
          [(table ks, String.concat "," cols, Some ((λ r, serialize E cols r.1 r.2) <$> g))]
      | None => []
      end
  | None => []
  end.

Definition expected_batches (E : env) (p : params) (stream : list record)
  : list (string * string * option (list string)) :=
  runs_on partition_key stream ≫= batch_of E p.

(** The batch files as found on disk. *)
Definition batch_contents (w : world) (dfs : list DataFile)
  : list (string * string * option (list string)) :=
  (λ df, (tablename df, columns df, fs w !! tempfile df)) <$> dfs.

(** The batch file [df] after staging under [job_id] in [bucket_name]. *)
Definition staged (job_id : string) (bucket_name : option string) (df : DataFile) : DataFile :=
  mkDataFile (tempfile df) (bucket_name, Some (job_id +:+ "-" +:+ tempfile df))
    (tablename df) (columns df).

(** The statements of a job run one after the other on a view of the
    database. *)
Fixpoint run_copies (E : env) (files : gmap string (list string))
    (objects : gmap (option string * string) (list string))
    (view : gmap string (list (gmap string pyval))) (commands : list string)
  : result (gmap string (list (gmap string pyval))) :=
  match commands with
  | [] => Ok view
  | c :: cs =>
      match execute E c files objects view with
      | Ok (view', _) => run_copies E files objects view' cs
      | Raise e => Raise e
      end
  end.

(** The values of column [ip] when every row can be read. *)
Fixpoint read_ips (rows : list (result (gmap string pyval))) : option (list pyval) :=
  match rows with
  | [] => Some []
  | Ok fields :: rows' =>
      match fields !! "ip", read_ips rows' with
      | Some v, Some vs => Some (v :: vs)
      | _, _ => None
      end
  | Raise _ :: _ => None
  end.

(** The events of one turn of the partitioner's loop that opens the file
    [f] for the keyset [ks]. *)
Definition close_events (t : option string) : list event :=
  match t with
  | Some f => [EvClose f]
  | None => []
  end.

Definition open_events (job_id : string) (ks : keyset) (f : string) : list event :=
  [EvOpen f; EvChmod f;
   EvLog INFO job_id ("Saving " +:+ table ks +:+ " data in " +:+ f)].

(** The world after a line is appended to the file [f]. *)
Definition wrote (f line : string) (w : world) : world :=
  World (<[f := default [] (fs w !! f) ++ [line]]> (fs w)) (db w) (session w)
    (bucket_store w) (trace w ++ [EvWrite f line]).

(** The world after the file [f] is opened for [ks], the file [t] closed,
    and a first line written. *)
Definition opened_and_wrote (job_id : string) (ks : keyset) (t : option string)
    (f line : string) (w : world) : world :=
  World (<[f := [line]]> (fs w)) (db w) (session w) (bucket_store w)
    (trace w ++ close_events t ++ open_events job_id ks f ++ [EvWrite f line]).

(** The files open after a list of events, oldest first. *)
Definition still_open_step (cur : list string) (ev : event) : list string :=
  match ev with
  | EvOpen f => filter (λ g, g ≠ f) cur ++ [f]
  | EvClose f => filter (λ g, g ≠ f) cur
  | _ => cur
  end.

Definition still_open (evs : list event) : list string :=
  fold_left still_open_step evs [].

(** The events of the bulk loader: those of the database connection, and
    the removal of a file. *)
Definition loader_event (ev : event) : bool :=
  match ev with
  | EvUnlink _ | EvConnect | EvExecute _ | EvCommit | EvRollback
  | EvCursorClose | EvConnectionClose => true
  | _ => false
  end.

(** The events of the [try] clause of the loader, and those of the clean-up
    of its [finally] clause. *)
Definition statement_event (ev : event) : bool :=
  match ev with
  | EvLog INFO _ _ | EvExecute _ => true
  | _ => false
  end.

Definition cleanup_event (ev : event) : bool :=
  match ev with
  | EvLog _ _ _ | EvUnlink _ => true
  | _ => false
  end.

(** The statements of a job. *)
Definition copy_commands (dfs : list DataFile) (extras : string) : list string :=
  (λ df, copy_command df extras) <$> dfs.

(** ** A concrete environment *)

Module Demo.

Definition show (v : pyval) : string :=
  match v with
  | PNone => "null"
  | PInt z => pretty z
  | PStr s => s
  end.

Definition demo_dumps (d : gmap string pyval) : string :=
  String.concat "," ((λ kv, kv.1 +:+ ":" +:+ show kv.2) <$> map_to_list d).

Fixpoint until_space (s : string) : string :=
  match s with
  | String c s' =>
      if Ascii.eqb c (Ascii.ascii_of_nat 32) then EmptyString
      else String c (until_space s')
  | EmptyString => EmptyString
  end.

(** The table a [COPY] statement names. *)
Definition table_of (command : string) : string :=
  until_space (String.substring 5 (String.length command - 5) command).

(** A [COPY] appends one row naming the statement to its table and fails on
    table [events]; any other statement reads table [blacklisted_ips]. *)
Definition demo_execute (command : string) (files : gmap string (list string))
    (objects : gmap (option string * string) (list string))
    (view : gmap string (list (gmap string pyval)))
  : result (gmap string (list (gmap string pyval)) * list (result (gmap string pyval))) :=
  if String.prefix "COPY " command then
    let t := table_of command in
    if decide (t = "events") then Raise (Exn DatabaseError "relation events does not exist")
    else Ok (<[t := default [] (view !! t) ++ [{["loaded" := PStr command]}]]> view, [])
  else
    match view !! "blacklisted_ips" with
    | Some rows => Ok (view, Ok <$> rows)
    | None => Raise (Exn DatabaseError "relation blacklisted_ips does not exist")
    end.

(** The store refuses uploads when [store_up] is false; the database host
    [down] cannot be reached. *)
Definition demo_env (store_up : bool) : env :=
  Env (λ files prefix, fresh_string ("/tmp/" +:+ prefix) files)
      demo_dumps
      (λ cp, if decide (host cp = "down")
             then Some (Exn DatabaseError "could not connect to server") else None)
      demo_execute
      exn_message
      (λ e, "Traceback: " +:+ exn_message e)
      (λ content, pretty (length content))
      (λ _ _ _ _, if store_up then None else Some (Exn S3ResponseError "403 Forbidden"))
      (Ok ("AKIA", "secret", "token")).

(** The same environment with temporary files under another directory. *)
Definition other_env : env :=
  Env (λ files prefix, fresh_string ("/scratch/" +:+ prefix) files)
      demo_dumps (connect (demo_env true)) demo_execute exn_message
      (format_exc (demo_env true)) (compute_md5 (demo_env true))
      (s3_put (demo_env true)) (instance_credentials (demo_env true)).

Definition orders : keyset := Keyset "orders" ["type"; "b"] ["val"] None.

Definition events : keyset := Keyset "events" ["type"; "x"] ["val"] None.

Definition visits : keyset := Keyset "visits" ["type"; "page"] ["val"] None.

Definition demo_params : params :=
  Params (<[PStr "t1" := orders]> (<[PStr "t2" := events]> (<[PStr "t3" := visits]> ∅))) None.

Definition demo_stream : list record :=
  [([PStr "t1"; PStr "a"], [PInt 1]);
   ([PStr "t1"; PStr "b"], [PInt 2]);
   ([PStr "t3"; PStr "x"], [PInt 9])].

Definition failing_stream : list record :=
  [([PStr "t1"; PStr "a"], [PInt 1]);
   ([PStr "t2"; PStr "x"], [PInt 9])].

(** A stream whose first partition key is [None], and a registry that has
    a keyset for it. *)
Definition none_stream : list record := [([PNone; PStr "a"], [PInt 1])].

Definition none_params : params := Params (<[PNone := orders]> (keysets demo_params)) None.

Definition world0 : world := World ∅ ∅ None ∅ [].

Definition warehouse : conn_params :=
  ConnParams "warehouse" (Some 5439%Z) (Some "stats") "etl" None.

Definition unreachable : conn_params :=
  ConnParams "down" (Some 5439%Z) (Some "stats") "etl" None.

(** The batch files and the world the partitioner leaves for the two
    streams. *)
Definition demo_files : list DataFile :=
  [mkDataFile "/tmp/t1" (None, None) "orders" "b,val";
   mkDataFile "/tmp/t3" (None, None) "visits" "page,val"].

Definition demo_world : world :=
  (_build_datafiles (demo_env true) demo_stream demo_params "job1" world0).1.

Definition failing_files : list DataFile :=
  [mkDataFile "/tmp/t1" (None, None) "orders" "b,val";
   mkDataFile "/tmp/t2" (None, None) "events" "x,val"].

Definition failing_world : world :=
  (_build_datafiles (demo_env true) failing_stream demo_params "job1" world0).1.

(** The world and the local variables of the partitioner after the first
    two records of [demo_stream], and the third record. *)
Definition two_read : world :=
  (for_fold (take 2 demo_stream) (build_step (demo_env true) demo_params "job1")
     build_init world0).1.

Definition two_read_locals : locals :=
  Locals (PStr "t1") [mkDataFile "/tmp/t1" (None, None) "orders" "b,val"]
    ["b"; "val"] 2 (Some "/tmp/t1").

Definition third_key : list pyval := [PStr "t3"; PStr "x"].

Definition three_read : world :=
  (build_step (demo_env true) demo_params "job1" two_read_locals
     (third_key, [PInt 9]) two_read).1.

(** A database with a denylist of three rows, two of them for one address,
    and one whose second row lacks the column. *)
Definition denylist_world : world :=
  World ∅ {["blacklisted_ips" := [{["ip" := PStr "10.0.0.1"]}; {["ip" := PStr "10.0.0.2"]};
                                  {["ip" := PStr "10.0.0.1"]}]]} None ∅ [].

Definition broken_denylist_world : world :=
  World ∅ {["blacklisted_ips" := [{["ip" := PStr "10.0.0.1"]}; {["address" := PStr "10.0.0.2"]}]]}
    None ∅ [].

(** A keyset whose mappings suppress the partition discriminator. *)
Definition suppressed : keyset :=
  Keyset "impressions" ["type"; "date"] ["count"] (Some {["type" := None]}).

End Demo.

(** ** Denylist maintenance *)

Section Maintenance.

Context (E : env).

(** [delete_old_blacklist_ips]: one statement in a transaction of its own;
    the cursor is left to the connection. *)
Definition delete_old_blacklist_ips (cp : conn_params) : M unit :=
  _connect E cp ;;;
  try_finally
    (try_except_else
       (cursor_execute E "delete from blacklisted_ips where date < current_date - 7")
       (λ e, connection_rollback ;;; raise e)
       (λ _, connection_commit))
    connection_close.

End Maintenance.

(** ** Marble insertion *)

(** [str(v)] and the truth value of a value. *)
Definition py_str (v : pyval) : string :=
  match v with
  | PNone => "None"
  | PInt z => pretty z
  | PStr s => s
  end.

Definition py_truthy (v : pyval) : bool :=
  match v with
  | PNone => false
  | PInt z => negb (Z.eqb z 0)
  | PStr s => negb (String.eqb s EmptyString)
  end.

(** The nested function [part_tag] of [insert_hustle_marble]; a call
    without partition is a call with [None]. *)
Definition part_tag (name : string) (partition : pyval) : string :=
  let rval := "hustle:" +:+ name in
  if py_truthy partition then rval +:+ ":" +:+ py_str partition else rval.

(** What [insert_hustle_marble] takes from the hustle library.
    - [hustle_setup]: [Some e] when looking up [ddfs] in the settings or
      [Table.from_tag(table_name)] raises [e];
    - [table_tag_name], [table_field_names]: [table._name] and
      [table._field_names];
    - [b64decode]: [base64.b64decode];
    - [table_insert rows]: [table._insert([stream], ...)] on the rows the
      stream yields (computing a row may raise): the number of lines and the
      partition files, by partition, in the order of [iteritems], or [None];
    - [ddfs_push tag files]: [Some e] when [ddfs.push] raises [e]. *)
Record hustle := Hustle {
  hustle_setup : option exn;
  table_tag_name : string;
  table_field_names : list string;
  b64decode : pyval → result pyval;
  table_insert : list (result (gmap string pyval)) → world →
                 world * result (nat * option (list (pyval * string)));
  ddfs_push : string → list string → option exn
}.

Section Marble.

Context (H : hustle).

(** [columns or table._field_names]. *)
Definition marble_field_names (cols : option (list string)) : list string :=
  match cols with
  | Some (c :: cs) => c :: cs
  | _ => table_field_names H
  end.

(** One row of [make_stream]:
    [dict(zip(field_names, key + [base64.b64decode(value[0])]))]. *)
Definition marble_row (field_names : list string) (r : record) : result (gmap string pyval) :=
  let '(key, value) := r in
  match value with
  | [] => Raise (Exn IndexError "list index out of range")
  | v0 :: _ =>
      match b64decode H v0 with
      | Ok payload => Ok (py_dict (py_zip field_names (key ++ [payload])))
      | Raise e => Raise e
      end
  end.

(** One turn of the loop over [partition_files]. *)
Definition push_partition (job_id : string) (pf : pyval * string) : M unit :=
  let '(part, file_) := pf in
  let tag := part_tag (table_tag_name H) part in
  match ddfs_push H tag [file_] with
  | Some e => raise e
  | None => ret ()
  end ;;;
  _log job_id ("Pushed tag " +:+ tag +:+ " for partition " +:+ py_str part) INFO ;;;
  _log job_id ("Nuking local marble file " +:+ file_) INFO ;;;
  os_unlink file_.

Definition insert_hustle_marble (disco_iter : list record) (job_id : string)
    (cols : option (list string)) : M unit :=
  match hustle_setup H with
  | Some e => raise e
  | None => ret ()
  end ;;;
  let field_names := marble_field_names cols in
  let* '(lines, partition_files) := table_insert H (marble_row field_names <$> disco_iter) in
  match partition_files with
  | Some parts => for_each parts (push_partition job_id)
  | None => ret ()
  end.

End Marble.

(** ** Vocabulary of the further properties *)

(** What the loader returns, and what the database holds afterwards, from
    the statements alone. *)
Definition load_outcome (E : env) (dfs : list DataFile) (extras : string) (w : world)
  : result unit :=
  match run_copies E (fs w) (bucket_store w) (db w) (copy_commands dfs extras) with
  | Ok _ => Ok ()
  | Raise e => Raise e
  end.

Definition load_db (E : env) (dfs : list DataFile) (extras : string) (w : world)
  : gmap string (list (gmap string pyval)) :=
  match run_copies E (fs w) (bucket_store w) (db w) (copy_commands dfs extras) with
  | Ok view => view
  | Raise _ => db w
  end.

(** The key under which the stager stores a batch file. *)
Definition staged_key (job_id : string) (df : DataFile) : string :=
  job_id +:+ "-" +:+ tempfile df.

(** Further cases for the witnesses. *)
Module Cases.

(** A keyset that suppresses its second key part. *)
Definition shifted : keyset :=
  Keyset "clicks" ["type"; "date"; "url"] ["count"] (Some {["date" := None]}).

(** A stream whose second partition key has no keyset. *)
Definition unknown_stream : list record :=
  [([PStr "t1"; PStr "a"], [PInt 1]);
   ([PStr "nope"; PStr "x"], [PInt 9]);
   ([PStr "t1"; PStr "b"], [PInt 2])].

(** A registry with a keyset under an integer, and a stream that reaches
    it. *)
Definition int_params : params :=
  Params (<[PInt 7 := Demo.events]> (keysets Demo.demo_params)) None.

Definition int_stream : list record :=
  [([PStr "t1"; PStr "a"], [PInt 1]);
   ([PInt 7; PStr "x"], [PInt 9])].

(** A database whose denylist can be pruned, with a statement that empties
    the table. *)
Definition prune_env : env :=
  Env (mktemp (Demo.demo_env true)) Demo.demo_dumps (connect (Demo.demo_env true))
      (λ command files objects view, Ok (<["blacklisted_ips" := []]> view, []))
      exn_message (format_exc (Demo.demo_env true)) (compute_md5 (Demo.demo_env true))
      (s3_put (Demo.demo_env true)) (instance_credentials (Demo.demo_env true)).

(** A hustle table of two fields whose insertion writes two marble files. *)
Definition marbles : list (pyval * string) :=
  [(PStr "2014-01-01", "/tmp/marble1"); (PStr "2014-01-02", "/tmp/marble2")].

Definition demo_hustle (ddfs_up : bool) : hustle :=
  Hustle None "impressions" ["date"; "payload"]
    (λ v, Ok v)
    (λ rows w,
       (set_fs (<["/tmp/marble1" := ["m1"]]> (<["/tmp/marble2" := ["m2"]]> (fs w))) w,
        Ok (length rows, Some marbles)))
    (λ tag files, if ddfs_up then None else Some (Exn IOError "ddfs is down")).

(** A hustle table whose insertion reports two marble files and writes
    only the first. *)
Definition lost_hustle : hustle :=
  Hustle None "impressions" ["date"; "payload"]
    (λ v, Ok v)
    (λ rows w, (set_fs (<["/tmp/marble1" := ["m1"]]> (fs w)) w, Ok (length rows, Some marbles)))
    (λ tag files, None).

(** The world after the insertion of [demo_hustle] and of [lost_hustle]. *)
Definition marble_world : world :=
  set_fs (<["/tmp/marble1" := ["m1"]]> (<["/tmp/marble2" := ["m2"]]> ∅)) Demo.world0.

Definition lost_world : world := set_fs (<["/tmp/marble1" := ["m1"]]> ∅) Demo.world0.

(** The world and the local variables of the partitioner after the first
    record of the scenario. *)
Definition one_read : world :=
  (for_fold (take 1 Demo.demo_stream)
     (build_step (Demo.demo_env true) Demo.demo_params "job1") build_init Demo.world0).1.

Definition one_read_locals : locals :=
  Locals (PStr "t1") [mkDataFile "/tmp/t1" (None, None) "orders" "b,val"]
    ["b"; "val"] 1 (Some "/tmp/t1").

(** The world after the batch files of the scenario are staged. *)
Definition staged_world : world :=
  (_upload_s3 (Demo.demo_env true) Demo.demo_files "job1" (Some "infernyx")
     Demo.demo_world).1.

(** A batch file whose local file is not there. *)
Definition gone_file : DataFile := mkDataFile "/tmp/gone" (None, None) "visits" "page,val".

(** The registry of the scenario on a [params] object whose
    [clean_db_files] is [False]. *)
Definition keep_params : params := Params (keysets Demo.demo_params) (Some false).

End Cases.

(** Unfolding of the monad's operations. *)
Ltac unfold_py :=
  unfold bind, ret, raise, emit, modify, try_except, try_finally, try_except_else,
    _log, set_fs, set_db, set_session, set_bucket_store in *.

(** * Properties *)

(** ** Keyset resolver *)

Section ColumnsFacts.

Import Columns.

Lemma bind_singleton (l : list string) : l ≫= (λ p, [p]) = l.
Proof. induction l as [|p l IH]; [done|]. by rewrite bind_cons, IH. Qed.

Lemma mapped_parts_resolve ks cm parts :
  column_mappings ks = Some cm →
  mapped_parts cm parts = parts ≫= resolve_name ks.
Proof.
  intros Hcm. induction parts as [|p ps IH]; [done|].
  rewrite bind_cons. unfold resolve_name at 1. rewrite Hcm. simpl.
  destruct (cm !! p) as [v|]; [destruct (truthy v)|]; simpl; by rewrite IH.
Qed.

Lemma resolve_name_identity ks parts :
  mappings_given ks = None → parts ≫= resolve_name ks = parts.
Proof.
  unfold mappings_given. intros Hg.
  rewrite <- (bind_singleton parts) at 2.
  induction parts as [|p ps IH]; [done|]. rewrite !bind_cons, IH. f_equal.
  unfold resolve_name. destruct (column_mappings ks) as [cm|]; [|done].
  case_decide; [subst cm|done]. by rewrite lookup_empty.
Qed.

(** Without mapping configuration the columns are the key parts after the
    discriminator, then the value parts. *)
Lemma get_columns_no_mappings ks :
  mappings_given ks = None →
  _get_columns ks = drop 1 (key_parts ks) ++ value_parts ks.
Proof. intros Hg. unfold _get_columns. by rewrite Hg. Qed.

(** Unless the discriminator itself is suppressed, the resolver returns what
    the contract describes. *)
Lemma get_columns_spec ks :
  discriminator_suppressed ks = false →
  _get_columns ks = spec_columns ks.
Proof.
  unfold discriminator_suppressed, _get_columns, spec_columns.
  destruct (mappings_given ks) as [cm|] eqn:Hg.
  - assert (column_mappings ks = Some cm) as Hcm.
    { unfold mappings_given in Hg. destruct (column_mappings ks); [|done].
      by case_decide; simplify_eq. }
    rewrite <- !(mapped_parts_resolve ks cm) by done.
    destruct (key_parts ks) as [|d rest]; [done|]. simpl.
    destruct (cm !! d) as [v|]; [|done].
    destruct (truthy v); [done|]. by intros [=].
  - intros _. by rewrite !resolve_name_identity.
Qed.

(** C3, at the keyset [Demo.suppressed]: key parts [type, date], value part
    [count], and the mapping [type -> None].  The contract skips the
    discriminator [type] and keeps [date] and [count]; [_get_columns] filters
    first and slices afterwards, so it loses [date] as well. *)
Lemma get_columns_suppressed_discriminator :
  _get_columns Demo.suppressed = ["count"] ∧
  spec_columns Demo.suppressed = ["date"; "count"].
Proof. split; vm_compute; reflexivity. Qed.

End ColumnsFacts.

(** ** The monad *)

Lemma for_fold_app {A S} (l1 l2 : list A) (body : S → A → M S) (s : S) (w : world) :
  for_fold (l1 ++ l2) body s w =
  match for_fold l1 body s w with
  | (w', Ok s') => for_fold l2 body s' w'
  | (w', Raise e) => (w', Raise e)
  end.
Proof.
  revert s w. induction l1 as [|x l1 IH]; intros s w; [done|].
  simpl. unfold bind. destruct (body s x w) as [w1 [s1|e]]; [apply IH|done].
Qed.
(** ** Stream partitioner: one turn of the loop *)

Section StepFacts.

Context (E : env) (p : params) (job_id : string).

(** A record with the partition key of the one before is written to the
    open file. *)
Lemma build_step_same st key value w f :
  head key = Some (pivot st) → tmp st = Some f →
  build_step E p job_id st (key, value) w =
    (wrote f (serialize E (cur_columns st) key value) w,
     Ok (Locals (pivot st) (datafiles st) (cur_columns st) (S (total_lines st)) (tmp st))).
Proof.
  intros Hk Ht. destruct key as [|k key]; simplify_eq/=.
  unfold build_step, key0, file_write, wrote. unfold_py.
  case_decide; [done|]. by rewrite Ht.
Qed.

(** A record with another partition key, a string with a keyset, closes the
    open file, opens a new one and is written to it. *)
Lemma build_step_new st key value w s ks :
  head key = Some (PStr s) → pivot st ≠ PStr s → keysets p !! PStr s = Some ks →
  let f := mktemp E (fs w) s in
  let cols := Columns._get_columns ks in
  build_step E p job_id st (key, value) w =
    (opened_and_wrote job_id ks (tmp st) f (serialize E cols key value) w,
     Ok (Locals (PStr s)
           (datafiles st ++ [mkDataFile f (None, None) (table ks) (String.concat "," cols)])
           cols (S (total_lines st)) (Some f))).
Proof.
  intros Hk Hne Hks. destruct key as [|k key]; simplify_eq/=.
  unfold build_step, key0, open_datafile, keyset_of, mktemp_prefix, gzip_open,
    file_write, close_if_open, opened_and_wrote, close_events, open_events.
  unfold_py. case_decide; [|done]. rewrite Hks.
  destruct (tmp st) as [t|]; simpl;
    rewrite lookup_insert_eq, insert_insert_eq; simpl;
    by rewrite <- ?app_assoc.
Qed.

(** A turn that raises nothing was one of these two. *)
Lemma build_step_inv st key value w w' st' :
  build_step E p job_id st (key, value) w = (w', Ok st') →
  ∃ k, head key = Some k ∧
    ((k = pivot st ∧ is_Some (tmp st)) ∨
     (k ≠ pivot st ∧ ∃ s, k = PStr s ∧ is_Some (keysets p !! PStr s))).
Proof.
  destruct key as [|k key]; [by unfold build_step, key0; unfold_py|].
  intros Hstep. exists k. split; [done|].
  destruct (decide (k = pivot st)) as [->|Hne].
  - left. split; [done|]. destruct (tmp st) as [f|] eqn:Ht; [by eexists|].
    revert Hstep. unfold build_step, key0. unfold_py.
    case_decide; [done|]. by rewrite Ht.
  - right. split; [done|]. revert Hstep.
    unfold build_step, key0, open_datafile, keyset_of, mktemp_prefix. unfold_py.
    case_decide; [|done].
    destruct (keysets p !! k) as [ks|] eqn:Hks; [|done].
    destruct k as [|z|s]; [by destruct (close_if_open (tmp st) w) as [? []]..|].
    intros _. exists s. by rewrite Hks.
Qed.

(** The first record of a stream whose partition key is [None] opens no
    file: the key equals the initial pivot, and the write fails. *)
Lemma build_step_none_first key value w :
  head key = Some PNone →
  build_step E p job_id build_init (key, value) w =
    (w, Raise (Exn AttributeError "'NoneType' object has no attribute 'write'")).
Proof.
  intros Hk. destruct key as [|k key]; simplify_eq/=.
  unfold build_step, key0. unfold_py. by try case_decide.
Qed.

End StepFacts.

(** ** Maximal runs *)

Section RunsFacts.

Context {A K : Type} `{EqDecision K} (f : A → K).

Lemma runs_on_cons_continue x l :
  runs_on f (x :: l) = ((x :: (continue f (f x) l).1) :: (continue f (f x) l).2).
Proof.
  unfold continue. simpl. destruct (runs_on f l) as [|[|y g] gs]; simpl; [done..|].
  destruct (decide (f x = f y)); case_decide; simpl; congruence.
Qed.

Lemma continue_nil k : continue f k [] = ([], []).
Proof. done. Qed.

Lemma continue_cons_same k x l :
  f x = k →
  continue f k (x :: l) = (x :: (continue f k l).1, (continue f k l).2).
Proof.
  intros <-. unfold continue at 1. rewrite runs_on_cons_continue.
  by rewrite decide_True.
Qed.

Lemma continue_cons_diff k x l :
  f x ≠ k →
  continue f k (x :: l) = ([], (x :: (continue f (f x) l).1) :: (continue f (f x) l).2).
Proof.
  intros Hne. unfold continue at 1. rewrite runs_on_cons_continue.
  by rewrite decide_False.
Qed.

(** The runs are a division of the list. *)
Lemma runs_on_concat l : concat (runs_on f l) = l.
Proof.
  induction l as [|x l IH]; [done|].
  rewrite runs_on_cons_continue. simpl. f_equal. rewrite <- IH at 3.
  unfold continue. destruct (runs_on f l) as [|[|y g] gs] eqn:Hr; simpl; [done| |].
  - destruct l as [|z l]; [done|]. by rewrite runs_on_cons_continue in Hr.
  - by case_decide.
Qed.

(** Each run is not empty and its elements share one key. *)
Lemma runs_on_uniform l :
  Forall (λ g, ∃ x g', g = x :: g' ∧ Forall (λ y, f y = f x) g') (runs_on f l).
Proof.
  induction l as [|x l IH]; [constructor|].
  simpl. destruct (runs_on f l) as [|[|y g] gs]; simpl.
  - repeat constructor. by exists x, [].
  - repeat constructor. by exists x, [].
  - inversion IH as [|? ? Hhd Hrest]; subst.
    destruct Hhd as (y' & g' & Heq & Hall). injection Heq as -> ->.
    case_decide.
    + constructor; [|done]. exists x, (y' :: g'). split; [done|].
      constructor; [done|]. eapply Forall_impl; [exact Hall|]. naive_solver congruence.
    + constructor; [by exists x, []|]. constructor; [|done]. by exists y', g'.
Qed.

(** The runs are maximal: two neighbours have different keys. *)
Lemma runs_on_maximal l i g1 g2 x1 x2 :
  runs_on f l !! i = Some g1 → runs_on f l !! S i = Some g2 →
  head g1 = Some x1 → head g2 = Some x2 → f x1 ≠ f x2.
Proof.
  revert i g1 g2 x1 x2. induction l as [|x l IH]; intros i g1 g2 x1 x2; [done|].
  simpl. pose proof (runs_on_uniform l) as Hu.
  destruct (runs_on f l) as [|[|y g] gs] eqn:Hr; simpl.
  - by destruct i.
  - by inversion Hu as [|? ? (? & ? & ? & _)].
  - case_decide as Hxy.
    + destruct i as [|i]; simpl.
      * intros [= <-] H2 [= <-] Hx2. intros Heq.
        apply (IH 0 (y :: g) g2 y x2); simpl; try done. congruence.
      * intros H1 H2. by apply (IH (S i)).
    + destruct i as [|i]; simpl.
      * intros [= <-] [= <-] [= <-] [= <-]. done.
      * intros H1 H2. by apply (IH i).
Qed.

End RunsFacts.

Lemma for_fold_cons {A S} (x : A) (l : list A) (body : S → A → M S) (s : S) (w : world) :
  for_fold (x :: l) body s w =
  match body s x w with
  | (w', Ok s') => for_fold l body s' w'
  | (w', Raise e) => (w', Raise e)
  end.
Proof. done. Qed.

(** ** Stream partitioner: the whole loop *)

Section LoopFacts.

Context (E : env) (p : params) (job_id : string).

Lemma registered_spec r :
  registered p r = true ↔
  ∃ s ks, partition_key r = Some (PStr s) ∧ keysets p !! PStr s = Some ks.
Proof.
  unfold registered. destruct (partition_key r) as [[| |s]|];
    try (split; [done|by intros (? & ? & [=] & _)]).
  rewrite bool_decide_eq_true. split.
  - intros [ks Hks]. by exists s, ks.
  - intros (? & ks & [= <-] & Hks). by exists ks.
Qed.

(** A turn on a registered record raises nothing when a file is open or the
    record has a new partition key. *)
Lemma build_step_total st r w :
  registered p r = true →
  is_Some (tmp st) ∨ partition_key r ≠ Some (pivot st) →
  ∃ w' st', build_step E p job_id st r w = (w', Ok st') ∧
    is_Some (tmp st') ∧ total_lines st' = S (total_lines st).
Proof.
  intros (s & ks & Hk & Hks)%registered_spec Hopen. destruct r as [key value].
  unfold partition_key in Hk, Hopen. simpl in Hk, Hopen.
  destruct (decide (pivot st = PStr s)) as [Heq|Hne].
  - destruct Hopen as [[f Hf]|Hne]; [|by rewrite Heq in Hne].
    rewrite (build_step_same E p job_id st key value w f) by (by rewrite ?Heq).
    eexists _, _. split; [done|]. simpl. by rewrite Hf.
  - rewrite (build_step_new E p job_id st key value w s ks) by done.
    eexists _, _. split; [done|]. by simpl.
Qed.

(** What a turn that raises nothing leaves behind. *)
Lemma build_step_ok st key value w w' st' :
  build_step E p job_id st (key, value) w = (w', Ok st') →
  (∃ f, head key = Some (pivot st) ∧ tmp st = Some f ∧
     w' = wrote f (serialize E (cur_columns st) key value) w ∧
     st' = Locals (pivot st) (datafiles st) (cur_columns st) (S (total_lines st)) (tmp st)) ∨
  (∃ s ks, head key = Some (PStr s) ∧ pivot st ≠ PStr s ∧ keysets p !! PStr s = Some ks ∧
     let f := mktemp E (fs w) s in
     let cols := Columns._get_columns ks in
     w' = opened_and_wrote job_id ks (tmp st) f (serialize E cols key value) w ∧
     st' = Locals (PStr s)
             (datafiles st ++ [mkDataFile f (None, None) (table ks) (String.concat "," cols)])
             cols (S (total_lines st)) (Some f)).
Proof.
  intros Hstep.
  destruct (build_step_inv E p job_id _ _ _ _ _ _ Hstep)
    as (k & Hk & [[-> [f Hf]]|[Hne (s & -> & [ks Hks])]]).
  - left. exists f. rewrite (build_step_same E p job_id st key value w f) in Hstep by done.
    by simplify_eq.
  - right. exists s, ks.
    rewrite (build_step_new E p job_id st key value w s ks) in Hstep by done.
    by simplify_eq.
Qed.

(** From a state with an open file, the loop appends one batch file for each
    run that follows the current one and counts every record. *)
Lemma build_loop_count l st w w' st' :
  for_fold l (build_step E p job_id) st w = (w', Ok st') →
  is_Some (tmp st) →
  length (datafiles st') =
    length (datafiles st) + length (continue partition_key (Some (pivot st)) l).2 ∧
  total_lines st' = total_lines st + length l ∧
  is_Some (tmp st').
Proof.
  revert st w. induction l as [|[key value] l IH]; intros st w Hrun Hopen.
  { simpl in Hrun. unfold ret in Hrun. simplify_eq. rewrite continue_nil. simpl.
    split_and!; [lia|lia|done]. }
  rewrite for_fold_cons in Hrun.
  destruct (build_step E p job_id st (key, value) w) as [w1 [st1|e]] eqn:Hstep; [|done].
  apply build_step_ok in Hstep as
    [(f & Hk & Hf & -> & ->)|(s & ks & Hk & Hne & Hks & -> & ->)].
  - apply IH in Hrun as (Hlen & Htot & Hopen'); [|by simpl].
    simpl in Hlen, Htot. rewrite continue_cons_same by done. simpl.
    split_and!; [done|lia|done].
  - assert (partition_key (key, value) = Some (PStr s)) as Hpk by done.
    apply IH in Hrun as (Hlen & Htot & Hopen'); [|by simpl].
    simpl in Hlen, Htot. rewrite continue_cons_diff by congruence. rewrite Hpk.
    rewrite Hlen, length_app. simpl. split_and!; [lia|lia|done].
Qed.

Lemma build_loop_total l st w :
  Forall (λ r, registered p r = true) l →
  is_Some (tmp st) →
  ∃ w' st', for_fold l (build_step E p job_id) st w = (w', Ok st').
Proof.
  revert st w. induction l as [|r l IH]; intros st w Hall Hopen.
  { by eexists _, _. }
  inversion Hall as [|? ? Hr Hl]; subst.
  destruct (build_step_total st r w Hr) as (w1 & st1 & Hstep & Hopen1 & _); [by left|].
  destruct (IH st1 w1 Hl Hopen1) as (w' & st' & Hrun).
  exists w', st'. by rewrite for_fold_cons, Hstep.
Qed.

(** The first turn of a run that raises nothing opens a file. *)
Lemma build_first_ok key value w w1 st1 :
  build_step E p job_id build_init (key, value) w = (w1, Ok st1) →
  ∃ s ks, head key = Some (PStr s) ∧ keysets p !! PStr s = Some ks ∧
    let f := mktemp E (fs w) s in
    let cols := Columns._get_columns ks in
    w1 = opened_and_wrote job_id ks None f (serialize E cols key value) w ∧
    st1 = Locals (PStr s) [mkDataFile f (None, None) (table ks) (String.concat "," cols)]
            cols 1 (Some f).
Proof.
  intros [(f & _ & Hf & _)|(s & ks & Hk & _ & Hks & -> & ->)]%build_step_ok; [done|].
  by exists s, ks.
Qed.

(** On return: one batch file for each maximal run, and every record
    counted. *)
Lemma build_datafiles_count_ok stream w w' dfs n :
  _build_datafiles E stream p job_id w = (w', Ok (dfs, n)) →
  length dfs = length (runs_on partition_key stream) ∧ n = length stream.
Proof.
  unfold _build_datafiles. unfold bind at 1.
  destruct (for_fold stream _ build_init w) as [w1 [st1|e]] eqn:Hrun; [|done].
  intros Hret. assert (dfs = datafiles st1 ∧ n = total_lines st1) as [-> ->].
  { revert Hret. unfold close_if_open. unfold_py.
    destruct (tmp st1); intros; by simplify_eq. }
  clear Hret. destruct stream as [|[key value] l].
  { simpl in Hrun. unfold ret in Hrun. by simplify_eq. }
  rewrite for_fold_cons in Hrun.
  destruct (build_step E p job_id build_init (key, value) w) as [w2 [st2|e]] eqn:Hstep;
    [|done].
  apply build_first_ok in Hstep as (s & ks & Hk & Hks & -> & ->).
  assert (partition_key (key, value) = Some (PStr s)) as Hpk by done.
  apply build_loop_count in Hrun as (Hlen & Htot & _); [|by simpl].
  simpl in Hlen, Htot. rewrite runs_on_cons_continue, Hpk. simpl.
  split; [done|lia].
Qed.

(** The partitioner returns on every stream of registered records. *)
Lemma build_datafiles_returns stream w :
  Forall (λ r, registered p r = true) stream →
  ∃ w' dfs, _build_datafiles E stream p job_id w = (w', Ok (dfs, length stream)).
Proof.
  intros Hall. destruct stream as [|r l]; [by eexists _, _|].
  inversion Hall as [|? ? Hr Hl]; subst.
  destruct (build_step_total build_init r w Hr) as (w1 & st1 & Hstep & Hopen1 & _).
  { right. apply registered_spec in Hr as (s & ks & -> & _). by simpl. }
  destruct (build_loop_total l st1 w1 Hl Hopen1) as (w2 & st2 & Hrun).
  assert (_build_datafiles E (r :: l) p job_id w =
          (World (fs w2) (db w2) (session w2) (bucket_store w2)
             (trace w2 ++ close_events (tmp st2)), Ok (datafiles st2, total_lines st2)))
    as Hret.
  { unfold _build_datafiles. unfold bind at 1. rewrite for_fold_cons, Hstep, Hrun.
    unfold close_if_open, close_events. unfold_py.
    destruct (tmp st2); simpl; [done|]. rewrite app_nil_r. by destruct w2. }
  destruct (build_datafiles_count_ok _ _ _ _ _ Hret) as [_ Hn].
  rewrite Hn in Hret. by eexists _, _.
Qed.


End LoopFacts.


(** ** Stream partitioner: when files are opened *)

Lemma still_open_app evs1 evs2 :
  still_open (evs1 ++ evs2) = fold_left still_open_step evs2 (still_open evs1).
Proof. unfold still_open. apply fold_left_app. Qed.

Section OpenFacts.

Context (E : env) (p : params) (job_id : string).

(** After a prefix of the stream: the pivot is the partition key of the last
    record read, a file is open unless nothing was read, and it is the only
    file open. *)
Lemma build_prefix_state pre w w1 st :
  for_fold pre (build_step E p job_id) build_init w = (w1, Ok st) →
  pivot st = previous_key pre ∧
  (tmp st = None ↔ pre = []) ∧
  ∃ evs, trace w1 = trace w ++ evs ∧ still_open evs = option_list (tmp st).
Proof.
  revert w1 st. induction pre as [|[key value] pre IH] using rev_ind; intros w1 st Hrun.
  { simpl in Hrun. unfold ret in Hrun. simplify_eq. split_and!; [done..|].
    exists []. by rewrite app_nil_r. }
  rewrite for_fold_app in Hrun.
  destruct (for_fold pre _ build_init w) as [w0 [st0|e]] eqn:Hpre; [|done].
  destruct (IH _ _ eq_refl) as (_ & _ & evs0 & Htr & Hopen).
  rewrite for_fold_cons in Hrun.
  destruct (build_step E p job_id st0 (key, value) w0) as [w2 [st2|e]] eqn:Hstep; [|done].
  simpl in Hrun. unfold ret in Hrun. simplify_eq.
  unfold previous_key. rewrite last_snoc. simpl. unfold partition_key. simpl.
  apply build_step_ok in Hstep as
    [(f & Hk & Hf & -> & ->)|(s & ks & Hk & Hne & Hks & -> & ->)]; simpl.
  - rewrite Hk, Hf. simpl. split_and!; [done|by split; [|intros ?%app_nil_r_inv]|].
    exists (evs0 ++ [EvWrite f (serialize E (cur_columns st0) key value)]).
    rewrite Htr, <- app_assoc. split; [done|].
    by rewrite still_open_app, Hopen, Hf.
  - rewrite Hk. simpl. split_and!; [done|by split; [|intros ?%app_nil_r_inv]|].
    eexists (evs0 ++ _). rewrite Htr, <- app_assoc. split; [done|].
    rewrite still_open_app, Hopen. destruct (tmp st0) as [f0|]; simpl; [|done].
    rewrite filter_cons, decide_False by (intros Hn; by apply Hn). done.
Qed.


(** C4, as the code has it: for a record that is read without error after
    the records [pre], a file is opened exactly when its partition key
    differs from the partition key of the record before it, the first record
    being compared with the initial pivot [None]; the file open until then,
    if any, is the only one open and is closed before the new one is
    opened.  A first record that is read without error has a partition key
    other than [None]. *)
Theorem build_opens_on_key_change pre key value w w1 st w2 st2 :
  for_fold pre (build_step E p job_id) build_init w = (w1, Ok st) →
  build_step E p job_id st (key, value) w1 = (w2, Ok st2) →
  ∃ k evs0 evs,
    head key = Some k ∧
    trace w1 = trace w ++ evs0 ∧ trace w2 = trace w1 ++ evs ∧
    still_open evs0 = option_list (tmp st) ∧
    (tmp st = None ↔ pre = []) ∧
    (k = previous_key pre → opened evs = [] ∧ closed evs = []) ∧
    (k ≠ previous_key pre →
       ∃ f evs', evs = close_events (tmp st) ++ EvOpen f :: evs' ∧
         opened evs' = [] ∧ closed evs' = [] ∧ tmp st2 = Some f) ∧
    (pre = [] → k ≠ PNone).
Proof.
  intros Hpre Hstep.
  destruct (build_prefix_state _ _ _ _ Hpre) as (Hpivot & Hnone & evs0 & Htr & Hopen).
  apply build_step_ok in Hstep as
    [(f & Hk & Hf & -> & ->)|(s & ks & Hk & Hne & Hks & -> & ->)].
  - exists (pivot st), evs0, [EvWrite f (serialize E (cur_columns st) key value)].
    split_and!; try done.
    intros Hp. apply Hnone in Hp. congruence.
  - exists (PStr s), evs0,
      (close_events (tmp st) ++ open_events job_id ks (mktemp E (fs w1) s) ++
       [EvWrite (mktemp E (fs w1) s)
          (serialize E (Columns._get_columns ks) key value)]).
    split_and!; try done.
    + intros Heq. by rewrite <- Hpivot in Heq.
    + intros _. by eexists _, _.
Qed.

End OpenFacts.

(** C4 at the third record of the scenario, read after two records of
    partition key [t1]: its partition key [t3] differs, the file [/tmp/t1]
    is closed and then a new file is opened. *)
Lemma build_opens_on_key_change_witness :
  ∃ f evs',
    trace Demo.three_read =
      trace Demo.two_read ++ EvClose "/tmp/t1" :: EvOpen f :: evs' ∧
    opened evs' = [] ∧ closed evs' = [].
Proof.
  destruct (build_opens_on_key_change (Demo.demo_env true) Demo.demo_params "job1"
              (take 2 Demo.demo_stream) Demo.third_key [PInt 9] Demo.world0
              Demo.two_read Demo.two_read_locals Demo.three_read
              (Locals (PStr "t3")
                 [mkDataFile "/tmp/t1" (None, None) "orders" "b,val";
                  mkDataFile "/tmp/t3" (None, None) "visits" "page,val"]
                 ["page"; "val"] 3 (Some "/tmp/t3")))
    as (k & evs0 & evs & Hk & _ & Htr & _ & _ & _ & Hnew & _);
    [vm_compute; reflexivity..|].
  destruct Hnew as (f & evs' & Hev & Ho & Hc & _); [by injection Hk as <-|].
  exists f, evs'. split; [|exact (conj Ho Hc)]. rewrite Htr, Hev. reflexivity.
Defined.

(** C4 as stated fails at a stream whose first partition key is [None]:
    nothing is opened for the first record (the world stays as it was, its
    trace empty), and the call raises [AttributeError]. *)
Lemma first_record_none_opens_nothing :
  _build_datafiles (Demo.demo_env true) Demo.none_stream Demo.none_params "job1" Demo.world0
    = (Demo.world0, Raise (Exn AttributeError "'NoneType' object has no attribute 'write'")) ∧
  opened (trace Demo.world0) = [].
Proof. split; vm_compute; reflexivity. Qed.

(** ** Field maps and arity *)

Lemma py_zip_take_l {A B} (xs : list A) (ys : list B) :
  py_zip xs ys = py_zip (take (length ys) xs) ys.
Proof.
  revert ys. induction xs as [|x xs IH]; intros [|y ys]; simpl; [done..|].
  by rewrite <- IH.
Qed.

Lemma py_zip_take_r {A B} (xs : list A) (ys : list B) :
  py_zip xs ys = py_zip xs (take (length xs) ys).
Proof.
  revert ys. induction xs as [|x xs IH]; intros [|y ys]; simpl; [done..|].
  by rewrite <- IH.
Qed.

Lemma py_zip_fst {A B} (xs : list A) (ys : list B) :
  (py_zip xs ys).*1 = take (length ys) xs.
Proof.
  revert ys. induction xs as [|x xs IH]; intros [|y ys]; simpl; [done..|].
  by rewrite IH.
Qed.

Lemma py_zip_lookup {A B} (xs : list A) (ys : list B) i x y :
  xs !! i = Some x → ys !! i = Some y → py_zip xs ys !! i = Some (x, y).
Proof.
  revert ys i. induction xs as [|x' xs IH]; intros [|y' ys] [|i]; simpl; try done.
  - by intros [= ->] [= ->].
  - apply IH.
Qed.

(** [dict(pairs)] is the map of the pairs read from the last to the first. *)
Lemma py_dict_list_to_map (pairs : list (string * pyval)) :
  py_dict pairs = list_to_map (reverse pairs).
Proof.
  unfold py_dict. rewrite <- (reverse_involutive pairs) at 1.
  generalize (reverse pairs). intros l. induction l as [|[k v] l IH]; [done|].
  rewrite reverse_cons, fold_left_app. simpl. by rewrite IH.
Qed.

Lemma py_dict_lookup_None (pairs : list (string * pyval)) c :
  c ∉ pairs.*1 → py_dict pairs !! c = None.
Proof.
  intros Hc. rewrite py_dict_list_to_map. apply not_elem_of_list_to_map_1.
  by rewrite fmap_reverse, elem_of_reverse.
Qed.

Lemma py_dict_lookup_Some (pairs : list (string * pyval)) c v :
  NoDup pairs.*1 → (c, v) ∈ pairs → py_dict pairs !! c = Some v.
Proof.
  intros Hnd Hin. rewrite py_dict_list_to_map. apply elem_of_list_to_map_1.
  - by rewrite fmap_reverse, reverse_Permutation.
  - by rewrite elem_of_reverse.
Qed.

Section ArityFacts.

Context (E : env) (p : params) (job_id : string).

(** Fields beyond the columns are left out of the field map. *)
Lemma field_map_excess cols key value :
  field_map cols key value =
  py_dict (py_zip cols (take (length cols) (drop 1 key ++ value))).
Proof. unfold field_map. by rewrite <- py_zip_take_r. Qed.

(** Columns beyond the fields are not in the field map. *)
Lemma field_map_short cols key value :
  field_map cols key value =
  py_dict (py_zip (take (length (drop 1 key ++ value)) cols) (drop 1 key ++ value)).
Proof. unfold field_map. by rewrite <- py_zip_take_l. Qed.

Lemma field_map_missing cols key value c :
  c ∉ take (length (drop 1 key ++ value)) cols →
  field_map cols key value !! c = None.
Proof. intros Hc. apply py_dict_lookup_None. by rewrite py_zip_fst. Qed.

(** With distinct column names, a column has the field at its position, and
    none when the fields end before it. *)
Lemma field_map_position cols key value i c :
  NoDup cols → cols !! i = Some c →
  field_map cols key value !! c = (drop 1 key ++ value) !! i.
Proof.
  intros Hnd Hc. destruct ((drop 1 key ++ value) !! i) as [v|] eqn:Hv.
  - apply py_dict_lookup_Some.
    + rewrite py_zip_fst. eapply sublist_NoDup; [exact Hnd|apply sublist_take].
    + apply list_elem_of_lookup. exists i. by apply py_zip_lookup.
  - apply field_map_missing. intros (j & Hj)%list_elem_of_lookup.
    apply lookup_take_Some in Hj as [Hj Hlt].
    assert (i = j) as -> by (eapply NoDup_lookup; eauto).
    apply lookup_ge_None in Hv. lia.
Qed.

(** C9: a record with a registered partition key is written and counted
    whatever the number of its fields; the line holds the field map, which
    has no field beyond the columns and no column beyond the fields. *)
Theorem arity_mismatch_tolerated st key value w :
  registered p (key, value) = true →
  is_Some (tmp st) ∨ partition_key (key, value) ≠ Some (pivot st) →
  ∃ w' st' f before,
    build_step E p job_id st (key, value) w = (w', Ok st') ∧
    total_lines st' = S (total_lines st) ∧
    tmp st' = Some f ∧
    fs w' !! f = Some (before ++ [dumps E (field_map (cur_columns st') key value) +:+ newline]) ∧
    field_map (cur_columns st') key value =
      py_dict (py_zip (cur_columns st')
                 (take (length (cur_columns st')) (drop 1 key ++ value))) ∧
    field_map (cur_columns st') key value =
      py_dict (py_zip (take (length (drop 1 key ++ value)) (cur_columns st'))
                 (drop 1 key ++ value)) ∧
    (∀ c, c ∉ take (length (drop 1 key ++ value)) (cur_columns st') →
          field_map (cur_columns st') key value !! c = None) ∧
    (NoDup (cur_columns st') → ∀ i c, cur_columns st' !! i = Some c →
          field_map (cur_columns st') key value !! c = (drop 1 key ++ value) !! i).
Proof.
  intros (s & ks & Hk & Hks)%registered_spec Hopen.
  unfold partition_key in Hk, Hopen. simpl in Hk, Hopen.
  destruct (decide (pivot st = PStr s)) as [Heq|Hne].
  - destruct Hopen as [[f Hf]|Hne]; [|by rewrite Heq in Hne].
    rewrite (build_step_same E p job_id st key value w f) by (by rewrite ?Heq).
    eexists _, _, f, (default [] (fs w !! f)). simpl. split_and!; try done.
    + unfold wrote. simpl. by rewrite lookup_insert_eq.
    + apply field_map_excess.
    + apply field_map_short.
    + apply field_map_missing.
    + intros. by apply field_map_position.
  - rewrite (build_step_new E p job_id st key value w s ks) by done.
    eexists _, _, _, []. simpl. split_and!; try done.
    + unfold opened_and_wrote. simpl. by rewrite lookup_insert_eq.
    + apply field_map_excess.
    + apply field_map_short.
    + apply field_map_missing.
    + intros. by apply field_map_position.
Qed.

End ArityFacts.

(** C9 at a record with three fields for the two columns of [orders], read
    after the first record of the scenario. *)
Lemma arity_mismatch_tolerated_witness :
  ∃ w' st' f before,
    build_step (Demo.demo_env true) Demo.demo_params "job1"
      (Locals (PStr "t1") [mkDataFile "/tmp/t1" (None, None) "orders" "b,val"]
         ["b"; "val"] 1 (Some "/tmp/t1"))
      ([PStr "t1"; PStr "b"], [PInt 2; PInt 7]) Demo.world0 = (w', Ok st') ∧
    total_lines st' = 2 ∧
    tmp st' = Some f ∧
    fs w' !! f = Some (before ++ ["val:2,b:b" +:+ newline]).
Proof.
  destruct (arity_mismatch_tolerated (Demo.demo_env true) Demo.demo_params "job1"
              (Locals (PStr "t1") [mkDataFile "/tmp/t1" (None, None) "orders" "b,val"]
                 ["b"; "val"] 1 (Some "/tmp/t1"))
              [PStr "t1"; PStr "b"] [PInt 2; PInt 7] Demo.world0)
    as (w' & st' & f & before & Hstep & Htot & Hf & Hfs & _);
    [vm_compute; reflexivity|left; by eexists|].
  exists w', st', f, before. split_and!; try done.
  assert (cur_columns st' = ["b"; "val"]) as Hcols.
  { revert Hstep. vm_compute. by intros [= _ <-]. }
  rewrite Hfs, Hcols. reflexivity.
Defined.

(** ** Stream partitioner: what the batch files hold *)

Section ContentFacts.

Context (E : env) (p : params) (job_id : string).

Lemma batch_of_cons_registered key value g s ks :
  head key = Some (PStr s) → keysets p !! PStr s = Some ks →
  batch_of E p ((key, value) :: g) =
    [(table ks, String.concat "," (Columns._get_columns ks),
      Some (serialize E (Columns._get_columns ks) key value ::
            ((λ r, serialize E (Columns._get_columns ks) r.1 r.2) <$> g)))].
Proof. intros Hk Hks. unfold batch_of, partition_key. simpl. by rewrite Hk, Hks. Qed.

(** From a state whose open file [f] exists: the loop appends to [f] the
    lines of the records that continue the current run, leaves every other
    file that exists alone, and creates one batch file for each later run,
    holding the lines of that run. *)
Lemma build_loop_contents l st w w' st' f :
  mktemp_fresh E →
  for_fold l (build_step E p job_id) st w = (w', Ok st') →
  tmp st = Some f → is_Some (fs w !! f) →
  ∃ newdfs,
    datafiles st' = datafiles st ++ newdfs ∧
    fs w' !! f =
      Some (default [] (fs w !! f) ++
            ((λ r, serialize E (cur_columns st) r.1 r.2) <$>
               (continue partition_key (Some (pivot st)) l).1)) ∧
    (∀ path, path ≠ f → is_Some (fs w !! path) → fs w' !! path = fs w !! path) ∧
    batch_contents w' newdfs =
      (continue partition_key (Some (pivot st)) l).2 ≫= batch_of E p.
Proof.
  intros Hfresh. revert st w f.
  induction l as [|[key value] l IH]; intros st w f Hrun Hf [c Hc].
  { simpl in Hrun. unfold ret in Hrun. simplify_eq. exists [].
    rewrite continue_nil, Hc, !app_nil_r. by simpl. }
  rewrite for_fold_cons in Hrun.
  destruct (build_step E p job_id st (key, value) w) as [w1 [st1|e]] eqn:Hstep; [|done].
  apply build_step_ok in Hstep as
    [(f' & Hk & Hf' & -> & ->)|(s & ks & Hk & Hne & Hks & -> & ->)].
  - assert (f' = f) as -> by congruence.
    destruct (IH _ _ f Hrun) as (newdfs & Hdfs & Hcont & Hrest & Hnew); [done|..].
    { unfold wrote. simpl. rewrite lookup_insert_eq. by eexists. }
    exists newdfs. simpl in Hdfs, Hcont, Hrest, Hnew.
    rewrite continue_cons_same by done. simpl. split_and!; [done| |intros path Hp Hex|done].
    + rewrite Hcont, lookup_insert_eq, Hc. simpl. by rewrite <- app_assoc.
    + rewrite Hrest; [|done|by rewrite lookup_insert_ne].
      by rewrite lookup_insert_ne.
  - assert (partition_key (key, value) = Some (PStr s)) as Hpk by done.
    set (f1 := mktemp E (fs w) s) in *.
    assert (fs w !! f1 = None) as Hf1 by apply Hfresh.
    assert (f ≠ f1) as Hff1 by (intros ->; by rewrite Hc in Hf1).
    destruct (IH _ _ f1 Hrun) as (newdfs & Hdfs & Hcont & Hrest & Hnew); [done|..].
    { unfold opened_and_wrote. simpl. rewrite lookup_insert_eq. by eexists. }
    simpl in Hdfs, Hcont, Hrest, Hnew. rewrite lookup_insert_eq in Hcont.
    eexists (_ :: newdfs). rewrite continue_cons_diff by congruence. rewrite Hpk. simpl.
    split_and!.
    + by rewrite Hdfs, <- app_assoc.
    + rewrite Hrest; [|done|by rewrite lookup_insert_ne, Hc by done].
      by rewrite lookup_insert_ne, Hc, app_nil_r.
    + intros path Hp Hex.
      assert (path ≠ f1) by (intros ->; rewrite Hf1 in Hex; by destruct Hex).
      rewrite Hrest; [|done|by rewrite lookup_insert_ne].
      by rewrite lookup_insert_ne.
    + rewrite (batch_of_cons_registered key value _ s ks) by done.
      simpl. by rewrite Hcont, Hnew.
Qed.

(** The batch files returned hold, run by run, the lines of the records. *)
Lemma build_datafiles_contents stream w w' dfs n :
  mktemp_fresh E →
  _build_datafiles E stream p job_id w = (w', Ok (dfs, n)) →
  batch_contents w' dfs = expected_batches E p stream.
Proof.
  intros Hfresh. unfold _build_datafiles. unfold bind at 1.
  destruct (for_fold stream _ build_init w) as [w1 [st1|e]] eqn:Hrun; [|done].
  intros Hret. assert (dfs = datafiles st1 ∧ fs w' = fs w1) as [-> Hfs].
  { revert Hret. unfold close_if_open. unfold_py.
    destruct (tmp st1); intros; by simplify_eq. }
  clear Hret. unfold batch_contents. rewrite Hfs. fold (batch_contents w1 (datafiles st1)).
  unfold expected_batches. destruct stream as [|[key value] l].
  { simpl in Hrun. unfold ret in Hrun. by simplify_eq. }
  rewrite for_fold_cons in Hrun.
  destruct (build_step E p job_id build_init (key, value) w) as [w2 [st2|e]] eqn:Hstep;
    [|done].
  apply build_first_ok in Hstep as (s & ks & Hk & Hks & -> & ->).
  assert (partition_key (key, value) = Some (PStr s)) as Hpk by done.
  eapply build_loop_contents in Hrun as (newdfs & Hdfs & Hcont & _ & Hnew);
    [|done|by simpl|by unfold opened_and_wrote; simpl; rewrite lookup_insert_eq].
  simpl in Hdfs, Hcont, Hnew. rewrite lookup_insert_eq in Hcont.
  rewrite runs_on_cons_continue, Hpk, bind_cons.
  rewrite (batch_of_cons_registered key value _ s ks) by done.
  rewrite Hdfs. unfold batch_contents at 1. simpl. rewrite Hcont. simpl.
  by rewrite <- Hnew.
Qed.

(** From a state whose pivot is a registered string, the records read
    without error are registered. *)
Lemma build_loop_registered l st w w' st' :
  for_fold l (build_step E p job_id) st w = (w', Ok st') →
  registered p ([pivot st], []) = true →
  Forall (λ r, registered p r = true) l.
Proof.
  revert st w. induction l as [|[key value] l IH]; intros st w Hrun Hpivot; [done|].
  rewrite for_fold_cons in Hrun.
  destruct (build_step E p job_id st (key, value) w) as [w1 [st1|e]] eqn:Hstep; [|done].
  apply build_step_ok in Hstep as
    [(f & Hk & Hf & -> & ->)|(s & ks & Hk & Hne & Hks & -> & ->)].
  - constructor; [|by eapply IH].
    revert Hpivot. unfold registered, partition_key. simpl. by rewrite Hk.
  - assert (registered p (key, value) = true) as Hr.
    { apply registered_spec. by exists s, ks. }
    constructor; [done|]. eapply IH; [done|]. simpl.
    apply registered_spec. by exists s, ks.
Qed.

(** The partitioner returns exactly on the streams of registered records,
    whatever the names of the temporary files. *)
Lemma build_datafiles_ok_registered stream w w' dfs n :
  _build_datafiles E stream p job_id w = (w', Ok (dfs, n)) →
  Forall (λ r, registered p r = true) stream.
Proof.
  unfold _build_datafiles. unfold bind at 1.
  destruct (for_fold stream _ build_init w) as [w1 [st1|e]] eqn:Hrun; [|done].
  intros _. destruct stream as [|[key value] l]; [done|].
  rewrite for_fold_cons in Hrun.
  destruct (build_step E p job_id build_init (key, value) w) as [w2 [st2|e]] eqn:Hstep;
    [|done].
  apply build_first_ok in Hstep as (s & ks & Hk & Hks & -> & ->).
  assert (registered p (key, value) = true) as Hr.
  { apply registered_spec. by exists s, ks. }
  constructor; [done|]. eapply build_loop_registered; [done|]. simpl.
  apply registered_spec. by exists s, ks.
Qed.

End ContentFacts.

Lemma expected_batches_ext E1 E2 p stream :
  dumps E1 = dumps E2 → expected_batches E1 p stream = expected_batches E2 p stream.
Proof.
  intros Hd. unfold expected_batches, batch_of, serialize. by rewrite Hd.
Qed.

(** C8: two runs of the partitioner on one stream, with one encoder, from
    any two worlds and with any two sources of fresh temporary names (and
    job identifiers), return batch files with the same tables, column lists
    and lines; the lines are those of [expected_batches], each computed by
    [serialize] from the column list and the fields of its record alone. *)
Theorem build_datafiles_deterministic E1 E2 p job1 job2 stream w1 w2 w1' dfs1 n :
  mktemp_fresh E1 → mktemp_fresh E2 → dumps E1 = dumps E2 →
  _build_datafiles E1 stream p job1 w1 = (w1', Ok (dfs1, n)) →
  ∃ w2' dfs2,
    _build_datafiles E2 stream p job2 w2 = (w2', Ok (dfs2, n)) ∧
    batch_contents w2' dfs2 = batch_contents w1' dfs1 ∧
    batch_contents w1' dfs1 = expected_batches E1 p stream.
Proof.
  intros Hf1 Hf2 Hd Hrun1.
  pose proof (build_datafiles_ok_registered _ _ _ _ _ _ _ _ Hrun1) as Hreg.
  destruct (build_datafiles_returns E2 p job2 stream w2 Hreg) as (w2' & dfs2 & Hrun2).
  destruct (build_datafiles_count_ok E1 p job1 _ _ _ _ _ Hrun1) as [_ ->].
  exists w2', dfs2. split; [done|].
  rewrite (build_datafiles_contents E1 p job1 stream w1 w1' dfs1 _ Hf1 Hrun1).
  rewrite (build_datafiles_contents E2 p job2 stream w2 w2' dfs2 _ Hf2 Hrun2).
  split; [|done]. symmetry. by apply expected_batches_ext.
Qed.

Lemma demo_env_fresh b : mktemp_fresh (Demo.demo_env b).
Proof. intros files prefix. apply fresh_string_fresh. Qed.

Lemma other_env_fresh : mktemp_fresh Demo.other_env.
Proof. intros files prefix. apply fresh_string_fresh. Qed.

(** C8 at the scenario: a second run, in the world the first run left and
    with temporary files elsewhere, writes the same two batch files. *)
Lemma build_datafiles_deterministic_witness :
  ∃ w1' dfs1 w2' dfs2,
    _build_datafiles (Demo.demo_env true) Demo.demo_stream Demo.demo_params "job1" Demo.world0
      = (w1', Ok (dfs1, 3)) ∧
    _build_datafiles Demo.other_env Demo.demo_stream Demo.demo_params "job2" w1'
      = (w2', Ok (dfs2, 3)) ∧
    batch_contents w2' dfs2 = batch_contents w1' dfs1 ∧
    tempfile <$> dfs1 = ["/tmp/t1"; "/tmp/t3"] ∧
    tempfile <$> dfs2 = ["/scratch/t1"; "/scratch/t3"].
Proof.
  eexists _, _.
  assert (_build_datafiles (Demo.demo_env true) Demo.demo_stream Demo.demo_params "job1"
            Demo.world0
          = ((_build_datafiles (Demo.demo_env true) Demo.demo_stream Demo.demo_params "job1"
                Demo.world0).1,
             Ok ([mkDataFile "/tmp/t1" (None, None) "orders" "b,val";
                  mkDataFile "/tmp/t3" (None, None) "visits" "page,val"], 3))) as Hrun1.
  { vm_compute. reflexivity. }
  destruct (build_datafiles_deterministic (Demo.demo_env true) Demo.other_env
              Demo.demo_params "job1" "job2" Demo.demo_stream Demo.world0
              (_build_datafiles (Demo.demo_env true) Demo.demo_stream Demo.demo_params "job1"
                 Demo.world0).1 _ _ _
              (demo_env_fresh true) other_env_fresh eq_refl Hrun1)
    as (w2' & dfs2 & Hrun2 & Hsame & _).
  exists w2', dfs2. split_and!; [exact Hrun1|exact Hrun2|exact Hsame|reflexivity|].
  revert Hrun2. vm_compute. by intros [= _ <-].
Defined.

(** ** Cloud stager *)

Section StagerFacts.

Context (E : env) (job_id : string) (bucket_name : option string).

(** What one upload leaves behind, whatever its outcome: the local files and
    the database are as before, and no event is one of the loader's. *)
Lemma upload_step_frame rval df w w' r :
  upload_step E job_id bucket_name rval df w = (w', r) →
  fs w' = fs w ∧ db w' = db w ∧ session w' = session w ∧
  ∃ evs, trace w' = trace w ++ evs ∧ Forall (λ ev, loader_event ev = false) evs.
Proof.
  unfold upload_step, read_file, set_contents. unfold_py.
  destruct (fs w !! tempfile df) as [content|].
  - destruct (s3_put E bucket_name _ content _) as [e|]; simpl; intros; simplify_eq; simpl.
    + split_and!; [done..|]. eexists [_]. split; [done|]. by repeat constructor.
    + split_and!; [done..|]. eexists [_; _]. rewrite <- app_assoc.
      split; [done|]. by repeat constructor.
  - intros. simplify_eq. split_and!; [done..|]. exists []. by rewrite app_nil_r.
Qed.

Lemma upload_step_ok rval df w w' rval' :
  upload_step E job_id bucket_name rval df w = (w', Ok rval') →
  rval' = rval ++ [staged job_id bucket_name df].
Proof.
  unfold upload_step, read_file, set_contents. unfold_py.
  destruct (fs w !! tempfile df) as [content|]; [|done].
  destruct (s3_put E bucket_name _ content _) as [e|]; simpl; [done|].
  by intros; simplify_eq.
Qed.

Lemma upload_step_total rval df w :
  is_Some (fs w !! tempfile df) →
  (∀ key content md5, s3_put E bucket_name key content md5 = None) →
  ∃ w', upload_step E job_id bucket_name rval df w =
          (w', Ok (rval ++ [staged job_id bucket_name df])).
Proof.
  intros [content Hc] Hput. unfold upload_step, read_file, set_contents. unfold_py.
  rewrite Hc, Hput. simpl. by eexists.
Qed.

Lemma upload_loop_frame dfs rval w w' r :
  for_fold dfs (upload_step E job_id bucket_name) rval w = (w', r) →
  fs w' = fs w ∧ db w' = db w ∧ session w' = session w ∧
  ∃ evs, trace w' = trace w ++ evs ∧ Forall (λ ev, loader_event ev = false) evs.
Proof.
  revert rval w. induction dfs as [|df dfs IH]; intros rval w Hrun.
  { simpl in Hrun. unfold ret in Hrun. simplify_eq. split_and!; [done..|].
    exists []. by rewrite app_nil_r. }
  rewrite for_fold_cons in Hrun.
  destruct (upload_step E job_id bucket_name rval df w) as [w1 r1] eqn:Hstep.
  apply upload_step_frame in Hstep as (Hfs & Hdb & Hse & evs1 & Htr & Hev).
  destruct r1 as [rval1|e].
  - apply IH in Hrun as (Hfs' & Hdb' & Hse' & evs2 & Htr' & Hev').
    split_and!; [congruence..|]. exists (evs1 ++ evs2).
    rewrite Htr', Htr, <- app_assoc. split; [done|]. by apply Forall_app.
  - simplify_eq. split_and!; [done..|]. by exists evs1.
Qed.

Lemma upload_loop_ok dfs rval w w' rval' :
  for_fold dfs (upload_step E job_id bucket_name) rval w = (w', Ok rval') →
  rval' = rval ++ (staged job_id bucket_name <$> dfs).
Proof.
  revert rval w. induction dfs as [|df dfs IH]; intros rval w Hrun.
  { simpl in Hrun. unfold ret in Hrun. simplify_eq. by rewrite app_nil_r. }
  rewrite for_fold_cons in Hrun.
  destruct (upload_step E job_id bucket_name rval df w) as [w1 [rval1|e]] eqn:Hstep;
    [|done].
  apply upload_step_ok in Hstep as ->. apply IH in Hrun as ->.
  by rewrite <- app_assoc.
Qed.

Lemma upload_loop_total dfs rval w :
  (∀ df, df ∈ dfs → is_Some (fs w !! tempfile df)) →
  (∀ key content md5, s3_put E bucket_name key content md5 = None) →
  ∃ w', for_fold dfs (upload_step E job_id bucket_name) rval w =
          (w', Ok (rval ++ (staged job_id bucket_name <$> dfs))).
Proof.
  intros Hex Hput. revert rval w Hex.
  induction dfs as [|df dfs IH]; intros rval w Hex.
  { exists w. by rewrite app_nil_r. }
  destruct (upload_step_total rval df w) as (w1 & Hstep); [apply Hex; by left|done|].
  destruct (IH (rval ++ [staged job_id bucket_name df]) w1) as (w' & Hrun).
  { intros df' Hin. apply upload_step_frame in Hstep as (-> & _). apply Hex. by right. }
  exists w'. rewrite for_fold_cons, Hstep, Hrun. by rewrite <- app_assoc.
Qed.

(** C7: when the stager returns, it returns the batch files in their order,
    each with its remote reference set to the bucket and the key
    [<job-id>-<local-path>] and its other fields as they were; it does
    return when every local file exists and the store takes every upload. *)
Theorem upload_s3_stages dfs w :
  (∀ w' rval,
     _upload_s3 E dfs job_id bucket_name w = (w', Ok rval) →
     rval = staged job_id bucket_name <$> dfs ∧
     ∀ i df, dfs !! i = Some df →
       ∃ df', rval !! i = Some df' ∧
         s3 df' = (bucket_name, Some (job_id +:+ "-" +:+ tempfile df)) ∧
         tempfile df' = tempfile df ∧ tablename df' = tablename df ∧
         columns df' = columns df) ∧
  ((∀ df, df ∈ dfs → is_Some (fs w !! tempfile df)) →
   (∀ key content md5, s3_put E bucket_name key content md5 = None) →
   ∃ w', _upload_s3 E dfs job_id bucket_name w =
           (w', Ok (staged job_id bucket_name <$> dfs))).
Proof.
  split.
  - intros w' rval ->%upload_loop_ok. split; [done|]. intros i df Hi.
    exists (staged job_id bucket_name df). simpl. by rewrite list_lookup_fmap, Hi.
  - intros Hex Hput. by apply (upload_loop_total dfs []).
Qed.

End StagerFacts.

(** C7 at the batch files of the scenario. *)
Lemma upload_s3_stages_witness :
  ∃ w',
    _upload_s3 (Demo.demo_env true)
      [mkDataFile "/tmp/t1" (None, None) "orders" "b,val";
       mkDataFile "/tmp/t3" (None, None) "visits" "page,val"] "job1" (Some "infernyx")
      (_build_datafiles (Demo.demo_env true) Demo.demo_stream Demo.demo_params "job1"
         Demo.world0).1
    = (w', Ok [mkDataFile "/tmp/t1" (Some "infernyx", Some "job1-/tmp/t1") "orders" "b,val";
               mkDataFile "/tmp/t3" (Some "infernyx", Some "job1-/tmp/t3") "visits"
                 "page,val"]).
Proof.
  destruct (upload_s3_stages (Demo.demo_env true) "job1" (Some "infernyx")
              [mkDataFile "/tmp/t1" (None, None) "orders" "b,val";
               mkDataFile "/tmp/t3" (None, None) "visits" "page,val"]
              (_build_datafiles (Demo.demo_env true) Demo.demo_stream Demo.demo_params "job1"
                 Demo.world0).1) as [_ Htotal].
  destruct Htotal as (w' & Hrun).
  - intros df [->|[->|[]%elem_of_nil]%elem_of_cons]%elem_of_cons; vm_compute; by eexists.
  - done.
  - by exists w'.
Defined.

(** ** The staged pipeline when staging fails *)

Section StagedFacts.

Context (E : env) (p : params) (job_id : string).

(** The loop of the partitioner leaves the database alone, never removes a
    file, and every batch file it lists exists. *)
Lemma build_loop_frame l st w w' st' :
  for_fold l (build_step E p job_id) st w = (w', Ok st') →
  (∀ df, df ∈ datafiles st → is_Some (fs w !! tempfile df)) →
  db w' = db w ∧ session w' = session w ∧
  (∀ df, df ∈ datafiles st' → is_Some (fs w' !! tempfile df)) ∧
  ∃ evs, trace w' = trace w ++ evs ∧ Forall (λ ev, loader_event ev = false) evs.
Proof.
  revert st w. induction l as [|[key value] l IH]; intros st w Hrun Hex.
  { simpl in Hrun. unfold ret in Hrun. simplify_eq. split_and!; [done..|].
    exists []. by rewrite app_nil_r. }
  rewrite for_fold_cons in Hrun.
  destruct (build_step E p job_id st (key, value) w) as [w1 [st1|e]] eqn:Hstep; [|done].
  apply build_step_ok in Hstep as
    [(f & Hk & Hf & -> & ->)|(s & ks & Hk & Hne & Hks & -> & ->)].
  - apply IH in Hrun as (Hdb & Hse & Hex' & evs & Htr & Hev).
    + split_and!; [done..|]. eexists (_ :: evs). simpl in Htr.
      rewrite Htr, <- app_assoc. split; [done|]. by constructor.
    + simpl. intros df Hdf. destruct (decide (tempfile df = f)) as [->|Hne].
      * rewrite lookup_insert_eq. by eexists.
      * rewrite lookup_insert_ne by done. by apply Hex.
  - apply IH in Hrun as (Hdb & Hse & Hex' & evs & Htr & Hev).
    + split_and!; [done..|]. simpl in Htr. eexists (_ ++ evs).
      rewrite Htr, <- app_assoc. split; [done|]. apply Forall_app. split; [|done].
      destruct (tmp st); by repeat constructor.
    + simpl. intros df [Hdf|Hdf%list_elem_of_singleton]%elem_of_app; [|subst df].
      * destruct (decide (tempfile df = mktemp E (fs w) s)) as [->|Hne'].
        -- rewrite lookup_insert_eq. by eexists.
        -- rewrite lookup_insert_ne by done. by apply Hex.
      * simpl. rewrite lookup_insert_eq. by eexists.
Qed.

Lemma build_datafiles_frame stream w w' dfs n :
  _build_datafiles E stream p job_id w = (w', Ok (dfs, n)) →
  db w' = db w ∧ session w' = session w ∧
  (∀ df, df ∈ dfs → is_Some (fs w' !! tempfile df)) ∧
  ∃ evs, trace w' = trace w ++ evs ∧ Forall (λ ev, loader_event ev = false) evs.
Proof.
  unfold _build_datafiles. unfold bind at 1.
  destruct (for_fold stream _ build_init w) as [w1 [st1|e]] eqn:Hrun; [|done].
  apply build_loop_frame in Hrun as (Hdb & Hse & Hex & evs & Htr & Hev);
    [|by intros df ?%elem_of_nil].
  unfold close_if_open. unfold_py. destruct (tmp st1) as [f|]; intros; simplify_eq; simpl.
  - split_and!; [done..|]. exists (evs ++ [EvClose f]). rewrite Htr, <- app_assoc.
    split; [done|]. apply Forall_app. split; [done|]. by repeat constructor.
  - split_and!; [done..|]. by exists evs.
Qed.

(** The loader does nothing when the connection fails: [_connect] is called
    before the [try] statement. *)
Lemma insert_datafiles_connect_fails cp dfs total extras w e :
  connect E cp = Some e →
  _insert_datafiles E cp dfs p job_id total extras w = (w, Raise e).
Proof. intros Hc. unfold _insert_datafiles, _connect. unfold_py. by rewrite Hc. Qed.

(** C6, as the code has it: when staging or the acquisition of credentials
    fails after the batch files are written, the error reaches the caller,
    the loader is not run (no event of the trace is one of its events, the
    database is as before), and the local files written by the partitioner
    all remain. *)
Theorem staged_failure_leaves_files cp bucket_name stream w w1 dfs n w2 e :
  _build_datafiles E stream p job_id w = (w1, Ok (dfs, n)) →
  _upload_s3 E dfs job_id bucket_name w1 = (w2, Raise e) ∨
  (∃ dfs', _upload_s3 E dfs job_id bucket_name w1 = (w2, Ok dfs') ∧
           instance_credentials E = Raise e) →
  insert_redshift E stream p job_id cp bucket_name w = (w2, Raise e) ∧
  db w2 = db w ∧ session w2 = session w ∧
  fs w2 = fs w1 ∧
  (∀ df, df ∈ dfs → is_Some (fs w2 !! tempfile df)) ∧
  ∃ evs, trace w2 = trace w ++ evs ∧ Forall (λ ev, loader_event ev = false) evs.
Proof.
  intros Hbuild Hfail.
  pose proof (build_datafiles_frame _ _ _ _ _ Hbuild) as (Hdb & Hse & Hex & evs & Htr & Hev).
  assert (∃ r, _upload_s3 E dfs job_id bucket_name w1 = (w2, r)) as [r Hup].
  { destruct Hfail as [?|(? & ? & _)]; by eexists. }
  pose proof (upload_loop_frame _ _ _ _ _ _ _ _ Hup)
    as (Hfs' & Hdb' & Hse' & evs' & Htr' & Hev').
  split_and!.
  - unfold insert_redshift. unfold bind at 1. rewrite Hbuild. unfold bind at 1.
    destruct Hfail as [Hup'|(dfs' & Hup' & Hcred)]; rewrite Hup'; [done|].
    unfold bind at 1. unfold _get_sts_credentials. by rewrite Hcred.
  - congruence.
  - congruence.
  - done.
  - intros df Hdf. rewrite Hfs'. by apply Hex.
  - exists (evs ++ evs'). rewrite Htr', Htr, <- app_assoc. split; [done|].
    by apply Forall_app.
Qed.

End StagedFacts.

(** C6 at the scenario with a store that refuses the upload. *)
Lemma staged_failure_leaves_files_witness :
  ∃ w2,
    insert_redshift (Demo.demo_env false) Demo.demo_stream Demo.demo_params "job1"
      Demo.warehouse (Some "infernyx") Demo.world0
      = (w2, Raise (Exn S3ResponseError "403 Forbidden")) ∧
    db w2 = ∅ ∧
    is_Some (fs w2 !! "/tmp/t1") ∧ is_Some (fs w2 !! "/tmp/t3").
Proof.
  pose (r1 := _build_datafiles (Demo.demo_env false) Demo.demo_stream Demo.demo_params
                "job1" Demo.world0).
  pose (dfs := [mkDataFile "/tmp/t1" (None, None) "orders" "b,val";
                mkDataFile "/tmp/t3" (None, None) "visits" "page,val"]).
  pose (r2 := _upload_s3 (Demo.demo_env false) dfs "job1" (Some "infernyx") r1.1).
  destruct (staged_failure_leaves_files (Demo.demo_env false) Demo.demo_params "job1"
              Demo.warehouse (Some "infernyx") Demo.demo_stream Demo.world0 r1.1 dfs 3
              r2.1 (Exn S3ResponseError "403 Forbidden"))
    as (Hrun & Hdb & _ & _ & Hex & _).
  - vm_compute. reflexivity.
  - left. vm_compute. reflexivity.
  - exists r2.1. split_and!; [exact Hrun|exact Hdb|..].
    + apply (Hex (mkDataFile "/tmp/t1" (None, None) "orders" "b,val")). by left.
    + apply (Hex (mkDataFile "/tmp/t3" (None, None) "visits" "page,val")).
      right. by left.
Defined.

(** C6 as stated fails at the scenario with a store that refuses the
    upload: the job fails, and the two local files written by the
    partitioner are still there, with their lines. *)
Lemma staging_failure_orphans_files :
  (insert_redshift (Demo.demo_env false) Demo.demo_stream Demo.demo_params "job1"
     Demo.warehouse (Some "infernyx") Demo.world0).2
    = Raise (Exn S3ResponseError "403 Forbidden") ∧
  fs (insert_redshift (Demo.demo_env false) Demo.demo_stream Demo.demo_params "job1"
        Demo.warehouse (Some "infernyx") Demo.world0).1 !! "/tmp/t1"
    = Some ["val:1,b:a" +:+ newline; "val:2,b:b" +:+ newline] ∧
  fs (insert_redshift (Demo.demo_env false) Demo.demo_stream Demo.demo_params "job1"
        Demo.warehouse (Some "infernyx") Demo.world0).1 !! "/tmp/t3"
    = Some ["val:9,page:x" +:+ newline] ∧
  unlinked (trace (insert_redshift (Demo.demo_env false) Demo.demo_stream Demo.demo_params
                     "job1" Demo.warehouse (Some "infernyx") Demo.world0).1) = [].
Proof. split_and!; vm_compute; reflexivity. Qed.

(** ** Bulk loader *)

Lemma for_each_app {A} (l1 l2 : list A) (body : A → M unit) (w : world) :
  for_each (l1 ++ l2) body w =
  match for_each l1 body w with
  | (w', Ok _) => for_each l2 body w'
  | (w', Raise e) => (w', Raise e)
  end.
Proof.
  revert w. induction l1 as [|x l1 IH]; intros w; [done|].
  simpl. unfold bind. destruct (body x w) as [w1 [[]|e]]; [apply IH|done].
Qed.

Lemma for_each_cons {A} (x : A) (l : list A) (body : A → M unit) (w : world) :
  for_each (x :: l) body w =
  match body x w with
  | (w', Ok _) => for_each l body w'
  | (w', Raise e) => (w', Raise e)
  end.
Proof. done. Qed.

Lemma run_copies_app E files objects view cs1 cs2 :
  run_copies E files objects view (cs1 ++ cs2) =
  match run_copies E files objects view cs1 with
  | Ok view' => run_copies E files objects view' cs2
  | Raise e => Raise e
  end.
Proof.
  revert view. induction cs1 as [|c cs1 IH]; intros view; [done|].
  simpl. destruct (execute E c files objects view) as [[view' rows]|e]; [apply IH|done].
Qed.

Section LoaderFacts.

Context (E : env) (p : params) (job_id : string).

(** The statements either all succeed, or there is a first one that raises. *)
Lemma run_copies_cases files objects view dfs extras :
  (∃ view', run_copies E files objects view (copy_commands dfs extras) = Ok view') ∨
  (∃ pre df post view1 e,
     dfs = pre ++ df :: post ∧
     run_copies E files objects view (copy_commands pre extras) = Ok view1 ∧
     execute E (copy_command df extras) files objects view1 = Raise e ∧
     run_copies E files objects view (copy_commands dfs extras) = Raise e).
Proof.
  revert view. induction dfs as [|df dfs IH]; intros view; [left; by eexists|].
  simpl. destruct (execute E (copy_command df extras) files objects view)
    as [[view1 rows]|e] eqn:Hex.
  - destruct (IH view1) as [[view' Hok]|(pre & df' & post & v1 & e & -> & Hpre & Hdf & Hall)].
    + left. by eexists.
    + right. exists (df :: pre), df', post, v1, e. simpl. by rewrite Hex.
  - right. by exists [], df, dfs, view, e.
Qed.

(** One statement of the [try] clause. *)
Lemma load_one df extras w view :
  session w = Some view →
  load_all E [df] job_id extras w =
  match execute E (copy_command df extras) (fs w) (bucket_store w) view with
  | Ok (view', _) =>
      (World (fs w) (db w) (Some view') (bucket_store w)
         (trace w ++ [EvLog INFO job_id ("Executing: " +:+ copy_command df extras);
                      EvExecute (copy_command df extras)]), Ok ())
  | Raise e =>
      (World (fs w) (db w) (Some view) (bucket_store w)
         (trace w ++ [EvLog INFO job_id ("Executing: " +:+ copy_command df extras);
                      EvExecute (copy_command df extras)]), Raise e)
  end.
Proof.
  intros Hs. unfold load_all, for_each, cursor_execute. unfold_py. simpl. rewrite Hs.
  destruct (execute E _ (fs w) (bucket_store w) view) as [[view' rows]|e];
    simpl; by rewrite <- ?app_assoc, ?Hs.
Qed.

(** The [try] clause when every statement succeeds. *)
Lemma load_all_ok dfs extras w view view' :
  session w = Some view →
  run_copies E (fs w) (bucket_store w) view (copy_commands dfs extras) = Ok view' →
  ∃ evs,
    load_all E dfs job_id extras w =
      (World (fs w) (db w) (Some view') (bucket_store w) (trace w ++ evs), Ok ()) ∧
    executed evs = copy_commands dfs extras ∧
    Forall (λ ev, statement_event ev = true) evs.
Proof.
  revert w view. induction dfs as [|df dfs IH]; intros w view Hs Hrun.
  { simpl in Hrun. simplify_eq. exists []. rewrite app_nil_r.
    split; [|done]. unfold load_all. simpl. unfold ret. destruct w; simpl in *. by subst. }
  simpl in Hrun.
  destruct (execute E (copy_command df extras) (fs w) (bucket_store w) view)
    as [[view1 rows]|e] eqn:Hex; [|done].
  unfold load_all in *. change (df :: dfs) with ([df] ++ dfs). rewrite for_each_app.
  fold (load_all E [df] job_id extras w). rewrite (load_one df extras w view Hs), Hex.
  match goal with |- context [for_each dfs _ ?w1] =>
    destruct (IH w1 view1 eq_refl Hrun) as (evs & Hall & Hexec & Hev) end.
  simpl in Hall. rewrite Hall. eexists ([_; _] ++ evs). rewrite app_assoc.
  split; [done|]. split.
  - simpl. by rewrite <- Hexec.
  - by repeat constructor.
Qed.

(** The [try] clause when a statement raises after the statements of [pre]. *)
Lemma load_all_raise pre df post extras w view view1 e :
  session w = Some view →
  run_copies E (fs w) (bucket_store w) view (copy_commands pre extras) = Ok view1 →
  execute E (copy_command df extras) (fs w) (bucket_store w) view1 = Raise e →
  ∃ evs,
    load_all E (pre ++ df :: post) job_id extras w =
      (World (fs w) (db w) (Some view1) (bucket_store w) (trace w ++ evs), Raise e) ∧
    executed evs = copy_commands (pre ++ [df]) extras ∧
    Forall (λ ev, statement_event ev = true) evs.
Proof.
  intros Hs Hpre Hdf.
  destruct (load_all_ok pre extras w view view1 Hs Hpre) as (evs & Hall & Hexec & Hev).
  unfold load_all in *. rewrite for_each_app, Hall.
  change (df :: post) with ([df] ++ post). rewrite for_each_app.
  match goal with |- context [for_each [df] _ ?w1] =>
    fold (load_all E [df] job_id extras w1);
    rewrite (load_one df extras w1 view1 eq_refl) end.
  simpl. rewrite Hdf. eexists (evs ++ [_; _]). rewrite app_assoc. split; [done|]. split.
  - unfold executed, copy_commands in *. rewrite omap_app, fmap_app, Hexec. done.
  - apply Forall_app. split; [done|]. by repeat constructor.
Qed.

(** The clean-up of one file never raises. *)
Lemma cleanup_file_spec df w :
  ∃ w' evs,
    cleanup_file E p job_id df w = (w', Ok ()) ∧
    db w' = db w ∧ session w' = session w ∧ bucket_store w' = bucket_store w ∧
    fs w' = (if clean_requested p then delete (tempfile df) (fs w) else fs w) ∧
    trace w' = trace w ++ evs ∧
    unlinked evs = (if clean_requested p then [tempfile df] else []) ∧
    Forall (λ ev, cleanup_event ev = true) evs ∧
    (clean_requested p = true → fs w !! tempfile df = None →
     EvLog ERROR job_id
       ("Error removing temp file: " +:+
        str_exc E (Exn OSError ("No such file or directory: " +:+ tempfile df)) +:+ ".")
       ∈ evs).
Proof.
  unfold cleanup_file, os_unlink. unfold_py.
  destruct (clean_requested p); simpl.
  - destruct (fs w !! tempfile df) as [c|] eqn:Hc; simpl.
    + eexists _, _. split; [reflexivity|]. simpl. rewrite <- ?app_assoc.
      split_and!; [done..|reflexivity|done| |done].
      repeat first [apply Forall_nil_2|apply Forall_cons_2; [done|]].
    + eexists _, _. split; [reflexivity|]. simpl. rewrite <- ?app_assoc.
      split_and!; [done..|by rewrite delete_id|reflexivity|done| |].
      * repeat first [apply Forall_nil_2|apply Forall_cons_2; [done|]].
      * intros _ _. set_solver.
  - exists w, []. rewrite app_nil_r. by split_and!.
Qed.

(** The clean-up loop never raises; it tries every file, in order. *)
Lemma cleanup_loop_spec dfs w :
  ∃ w' evs,
    for_each dfs (cleanup_file E p job_id) w = (w', Ok ()) ∧
    db w' = db w ∧ session w' = session w ∧ bucket_store w' = bucket_store w ∧
    trace w' = trace w ++ evs ∧
    unlinked evs = (if clean_requested p then tempfile <$> dfs else []) ∧
    Forall (λ ev, cleanup_event ev = true) evs ∧
    (clean_requested p = true →
       (∀ df, df ∈ dfs → fs w' !! tempfile df = None) ∧
       (∀ path, fs w !! path = None → fs w' !! path = None) ∧
       (∀ path, path ∉ tempfile <$> dfs → fs w' !! path = fs w !! path) ∧
       (∀ df, df ∈ dfs → fs w !! tempfile df = None →
          EvLog ERROR job_id
            ("Error removing temp file: " +:+
             str_exc E (Exn OSError ("No such file or directory: " +:+ tempfile df)) +:+ ".")
            ∈ evs)) ∧
    (clean_requested p = false → fs w' = fs w).
Proof.
  revert w. induction dfs as [|df dfs IH]; intros w.
  { exists w, []. rewrite app_nil_r. split_and!; try done; [by destruct (clean_requested p)|].
    intros _. split_and!; try done. by intros df ?%elem_of_nil. by intros df ?%elem_of_nil. }
  destruct (cleanup_file_spec df w)
    as (w1 & evs1 & Hone & Hdb1 & Hse1 & Hbs1 & Hfs1 & Htr1 & Hun1 & Hev1 & Hlog1).
  destruct (IH w1) as (w' & evs & Hrest & Hdb & Hse & Hbs & Htr & Hun & Hev & Hclean & Hkeep).
  exists w', (evs1 ++ evs). rewrite for_each_cons, Hone. split_and!; try congruence.
  - by rewrite Htr, Htr1, <- app_assoc.
  - unfold unlinked in *. rewrite omap_app, Hun1, Hun. by destruct (clean_requested p).
  - by apply Forall_app.
  - intros Hc. destruct (Hclean Hc) as (Hgone & Hnone & Hother & Hlog).
    rewrite Hc in Hfs1. split_and!.
    + intros df' [->|Hin]%elem_of_cons; [|by apply Hgone].
      apply Hnone. by rewrite Hfs1, lookup_delete_eq.
    + intros path Hp. apply Hnone. rewrite Hfs1.
      destruct (decide (tempfile df = path)) as [->|Hne]; [by rewrite lookup_delete_eq|].
      by rewrite lookup_delete_ne.
    + intros path Hp. rewrite fmap_cons, not_elem_of_cons in Hp. destruct Hp as [Hne Hp].
      rewrite Hother by done. rewrite Hfs1. by rewrite lookup_delete_ne.
    + intros df' [->|Hin]%elem_of_cons Hnone'.
      * apply elem_of_app. left. by apply Hlog1.
      * apply elem_of_app. right. apply Hlog; [done|]. rewrite Hfs1.
        destruct (decide (tempfile df = tempfile df')) as [->|Hne];
          [by rewrite lookup_delete_eq|by rewrite lookup_delete_ne].
  - intros Hc. rewrite Hkeep by done. by rewrite Hfs1, Hc.
Qed.

End LoaderFacts.

Lemma executed_cleanup evs :
  Forall (λ ev, cleanup_event ev = true) evs → executed evs = [].
Proof.
  induction 1 as [|ev evs Hev _ IH]; [done|]. by destruct ev.
Qed.

Lemma unlinked_statement evs :
  Forall (λ ev, statement_event ev = true) evs → unlinked evs = [].
Proof.
  induction 1 as [|ev evs Hev _ IH]; [done|]. by destruct ev as [[]| | | | | | | | | | | |].
Qed.

Lemma statement_events_no_end evs :
  Forall (λ ev, statement_event ev = true) evs →
  (EvCommit ∉ evs) ∧ (EvRollback ∉ evs).
Proof.
  intros Hev. split; intros Hin; apply (proj1 (Forall_forall _ _) Hev) in Hin; done.
Qed.

Lemma cleanup_events_no_end evs :
  Forall (λ ev, cleanup_event ev = true) evs →
  (EvCommit ∉ evs) ∧ (EvRollback ∉ evs).
Proof.
  intros Hev. split; intros Hin; apply (proj1 (Forall_forall _ _) Hev) in Hin; done.
Qed.

Section LoaderOutcomes.

Context (E : env) (p : params) (job_id : string).

Lemma cleanup_after dfs w0 w' :
  for_each dfs (cleanup_file E p job_id) w0 = (w', Ok ()) →
  ∃ evs,
    db w' = db w0 ∧ session w' = session w0 ∧
    trace w' = trace w0 ++ evs ∧
    unlinked evs = (if clean_requested p then tempfile <$> dfs else []) ∧
    Forall (λ ev, cleanup_event ev = true) evs ∧
    (clean_requested p = true →
       (∀ df, df ∈ dfs → fs w' !! tempfile df = None) ∧
       (∀ df, df ∈ dfs → fs w0 !! tempfile df = None →
          EvLog ERROR job_id
            ("Error removing temp file: " +:+
             str_exc E (Exn OSError ("No such file or directory: " +:+ tempfile df)) +:+ ".")
            ∈ evs)) ∧
    (clean_requested p = false → fs w' = fs w0).
Proof.
  intros Hclean.
  destruct (cleanup_loop_spec E p job_id dfs w0)
    as (w'' & evs & Hclean' & Hdb & Hse & _ & Htr & Hun & Hev & Hcl & Hkeep).
  rewrite Hclean in Hclean'. injection Hclean' as <-.
  exists evs. split_and!; try done. intros Hc. by destruct (Hcl Hc) as (? & _ & _ & ?).
Qed.

(** The world when the [finally] clause starts its clean-up, after a commit
    and after a rollback. *)
Lemma insert_datafiles_commits cp dfs total extras w view' :
  connect E cp = None →
  run_copies E (fs w) (bucket_store w) (db w) (copy_commands dfs extras) = Ok view' →
  ∃ evs w',
    for_each dfs (cleanup_file E p job_id)
      (World (fs w) view' None (bucket_store w)
         (trace w ++ EvConnect :: evs ++
          [EvCommit;
           EvLog INFO job_id ("Processed " +:+ pretty total +:+ " records in " +:+
                              pretty (size (keysets p)) +:+ " keysets.");
           EvCursorClose; EvConnectionClose])) = (w', Ok ()) ∧
    _insert_datafiles E cp dfs p job_id total extras w = (w', Ok ()) ∧
    executed evs = copy_commands dfs extras ∧
    Forall (λ ev, statement_event ev = true) evs.
Proof.
  intros Hc Hrun.
  destruct (load_all_ok E job_id dfs extras
              (World (fs w) (db w) (Some (db w)) (bucket_store w) (trace w ++ [EvConnect]))
              (db w) view' eq_refl Hrun) as (evs & Hall & Hexec & Hev).
  simpl in Hall.
  destruct (cleanup_loop_spec E p job_id dfs
              (World (fs w) view' None (bucket_store w)
                 (trace w ++ EvConnect :: evs ++
                  [EvCommit;
                   EvLog INFO job_id ("Processed " +:+ pretty total +:+ " records in " +:+
                                      pretty (size (keysets p)) +:+ " keysets.");
                   EvCursorClose; EvConnectionClose]))) as (w' & evsc & Hclean & _).
  exists evs, w'. split; [exact Hclean|]. split; [|done].
  unfold _insert_datafiles, _connect, load_succeeded, load_finally, connection_commit,
    cursor_close, connection_close. unfold_py. rewrite Hc. simpl. rewrite Hall. simpl.
  rewrite <- !app_assoc. simpl. by rewrite Hclean.
Qed.

Lemma insert_datafiles_rolls_back cp pre df post total extras w view1 e :
  connect E cp = None →
  run_copies E (fs w) (bucket_store w) (db w) (copy_commands pre extras) = Ok view1 →
  execute E (copy_command df extras) (fs w) (bucket_store w) view1 = Raise e →
  ∃ evs w',
    for_each (pre ++ df :: post) (cleanup_file E p job_id)
      (World (fs w) (db w) None (bucket_store w)
         (trace w ++ EvConnect :: evs ++
          [EvLog ERROR job_id ("Error persisting results. Rolling back: " +:+ exn_message e);
           EvLog ERROR job_id (format_exc E e);
           EvRollback; EvCursorClose; EvConnectionClose])) = (w', Ok ()) ∧
    _insert_datafiles E cp (pre ++ df :: post) p job_id total extras w = (w', Raise e) ∧
    executed evs = copy_commands (pre ++ [df]) extras ∧
    Forall (λ ev, statement_event ev = true) evs.
Proof.
  intros Hc Hpre Hdf.
  destruct (load_all_raise E job_id pre df post extras
              (World (fs w) (db w) (Some (db w)) (bucket_store w) (trace w ++ [EvConnect]))
              (db w) view1 e eq_refl Hpre Hdf) as (evs & Hall & Hexec & Hev).
  simpl in Hall.
  destruct (cleanup_loop_spec E p job_id (pre ++ df :: post)
              (World (fs w) (db w) None (bucket_store w)
                 (trace w ++ EvConnect :: evs ++
                  [EvLog ERROR job_id
                     ("Error persisting results. Rolling back: " +:+ exn_message e);
                   EvLog ERROR job_id (format_exc E e);
                   EvRollback; EvCursorClose; EvConnectionClose])))
    as (w' & evsc & Hclean & _).
  exists evs, w'. split; [exact Hclean|]. split; [|done].
  unfold _insert_datafiles, _connect, load_failed, load_finally, connection_rollback,
    cursor_close, connection_close. unfold_py. rewrite Hc. simpl. rewrite Hall. simpl.
  rewrite <- !app_assoc. simpl. by rewrite Hclean.
Qed.

(** C1: when a statement raises after the statements before it succeeded,
    the loader raises that same error, the database has its contents of
    before the call (the transaction is rolled back and the connection
    closed), exactly the statements up to the failing one were executed, and
    nothing is committed.  Whatever the batch files: either every statement
    succeeded, the loader returns and the database holds the outcome of all
    of them, or the loader raises and the database is as before. *)
Theorem insert_datafiles_atomic cp total extras w :
  connect E cp = None →
  (∀ pre df post view1 e,
     run_copies E (fs w) (bucket_store w) (db w) (copy_commands pre extras) = Ok view1 →
     execute E (copy_command df extras) (fs w) (bucket_store w) view1 = Raise e →
     ∃ w' evs,
       _insert_datafiles E cp (pre ++ df :: post) p job_id total extras w = (w', Raise e) ∧
       db w' = db w ∧ session w' = None ∧
       trace w' = trace w ++ evs ∧
       executed evs = copy_commands (pre ++ [df]) extras ∧
       EvRollback ∈ evs ∧ (EvCommit ∉ evs)) ∧
  (∀ dfs w' r,
     _insert_datafiles E cp dfs p job_id total extras w = (w', r) →
     (r = Ok () ∧
      run_copies E (fs w) (bucket_store w) (db w) (copy_commands dfs extras) = Ok (db w')) ∨
     (∃ e, r = Raise e ∧ db w' = db w)).
Proof.
  intros Hc.
  assert (∀ pre df post view1 e,
     run_copies E (fs w) (bucket_store w) (db w) (copy_commands pre extras) = Ok view1 →
     execute E (copy_command df extras) (fs w) (bucket_store w) view1 = Raise e →
     ∃ w' evs,
       _insert_datafiles E cp (pre ++ df :: post) p job_id total extras w = (w', Raise e) ∧
       db w' = db w ∧ session w' = None ∧
       trace w' = trace w ++ evs ∧
       executed evs = copy_commands (pre ++ [df]) extras ∧
       EvRollback ∈ evs ∧ (EvCommit ∉ evs)) as Hfail.
  { intros pre df post view1 e Hpre Hdf.
    destruct (insert_datafiles_rolls_back cp pre df post total extras w view1 e Hc Hpre Hdf)
      as (evs & w' & Hclean & Hrun & Hexec & Hev).
    apply cleanup_after in Hclean as (evsc & Hdb & Hse & Htr & _ & Hevc & _).
    simpl in Hdb, Hse, Htr.
    exists w'. eexists. split; [done|]. split; [done|]. split; [done|].
    split; [rewrite Htr, <- app_assoc; reflexivity|].
    destruct (statement_events_no_end _ Hev) as [Hnc _].
    destruct (cleanup_events_no_end _ Hevc) as [Hnc' _].
    split_and!.
    - unfold executed in *. simpl. rewrite !omap_app, Hexec. simpl.
      fold (executed evsc). by rewrite (executed_cleanup _ Hevc), !app_nil_r.
    - repeat (rewrite elem_of_app || rewrite elem_of_cons). intuition.
    - repeat (rewrite not_elem_of_app || rewrite not_elem_of_cons).
      split_and!; try done. apply not_elem_of_nil. }
  split; [exact Hfail|].
  intros dfs w' r Hrun.
  destruct (run_copies_cases E (fs w) (bucket_store w) (db w) dfs extras)
    as [[view' Hok]|(pre & df & post & view1 & e & -> & Hpre & Hdf & _)].
  - left.
    destruct (insert_datafiles_commits cp dfs total extras w view' Hc Hok)
      as (evs & w1 & Hclean & Hrun1 & _).
    apply cleanup_after in Hclean as (evsc & Hdb & _). simpl in Hdb.
    rewrite Hrun1 in Hrun. injection Hrun as <- <-. by rewrite Hdb.
  - right. destruct (Hfail pre df post view1 e Hpre Hdf) as (w1 & evs & Hrun1 & Hdb & _).
    rewrite Hrun1 in Hrun. injection Hrun as <- <-. by exists e.
Qed.

(** The [finally] clause once the connection is made, in terms of the value
    [getattr(params, 'clean_db_files', True)] the loop tests. *)
Lemma insert_datafiles_finally cp dfs total extras w :
  connect E cp = None →
  ∃ w' r evs_load evs_clean,
    _insert_datafiles E cp dfs p job_id total extras w = (w', r) ∧
    trace w' =
      trace w ++ EvConnect :: evs_load ++ [EvCursorClose; EvConnectionClose] ++ evs_clean ∧
    unlinked evs_load = [] ∧
    ((r = Ok () ∧ EvCommit ∈ evs_load ∧ (EvRollback ∉ evs_load)) ∨
     (∃ e, r = Raise e ∧ EvRollback ∈ evs_load ∧ (EvCommit ∉ evs_load))) ∧
    r = match run_copies E (fs w) (bucket_store w) (db w) (copy_commands dfs extras) with
        | Ok _ => Ok ()
        | Raise e => Raise e
        end ∧
    session w' = None ∧
    Forall (λ ev, cleanup_event ev = true) evs_clean ∧
    unlinked evs_clean = (if clean_requested p then tempfile <$> dfs else []) ∧
    (clean_requested p = true → ∀ df, df ∈ dfs → fs w' !! tempfile df = None) ∧
    (clean_requested p = true → ∀ df, df ∈ dfs → fs w !! tempfile df = None →
       EvLog ERROR job_id
         ("Error removing temp file: " +:+
          str_exc E (Exn OSError ("No such file or directory: " +:+ tempfile df)) +:+ ".")
         ∈ evs_clean) ∧
    (clean_requested p = false → fs w' = fs w).
Proof.
  intros Hc.
  destruct (run_copies_cases E (fs w) (bucket_store w) (db w) dfs extras)
    as [[view' Hok]|(pre & df & post & view1 & e & -> & Hpre & Hdf & Hall)].
  - destruct (insert_datafiles_commits cp dfs total extras w view' Hc Hok)
      as (evs & w1 & Hclean & Hrun & Hexec & Hev).
    apply cleanup_after in Hclean as (evsc & _ & Hse & Htr & Hun & Hevc & Hcl & Hkeep).
    simpl in Hse, Htr, Hcl, Hkeep.
    destruct (statement_events_no_end _ Hev) as [Hnc Hnr].
    exists w1, (Ok ()). eexists (evs ++ [EvCommit; _]), evsc.
    split; [done|].
    split; [rewrite Htr, <- !app_assoc; simpl; rewrite <- !app_assoc; reflexivity|].
    split_and!; try done.
    + unfold unlinked in *. rewrite omap_app. fold (unlinked evs).
      by rewrite (unlinked_statement _ Hev).
    + left. split; [done|]. split.
      * repeat (rewrite elem_of_app || rewrite elem_of_cons). intuition.
      * repeat (rewrite not_elem_of_app || rewrite not_elem_of_cons).
        split_and!; try done. apply not_elem_of_nil.
    + by rewrite Hok.
    + intros Hcr. by apply Hcl.
    + intros Hcr. by apply Hcl.
  - destruct (insert_datafiles_rolls_back cp pre df post total extras w view1 e Hc Hpre Hdf)
      as (evs & w1 & Hclean & Hrun & Hexec & Hev).
    apply cleanup_after in Hclean as (evsc & _ & Hse & Htr & Hun & Hevc & Hcl & Hkeep).
    simpl in Hse, Htr, Hcl, Hkeep.
    destruct (statement_events_no_end _ Hev) as [Hnc Hnr].
    exists w1, (Raise e). eexists (evs ++ [_; _; EvRollback]), evsc.
    split; [done|].
    split; [rewrite Htr, <- !app_assoc; simpl; rewrite <- !app_assoc; reflexivity|].
    split_and!; try done.
    + unfold unlinked in *. rewrite omap_app. fold (unlinked evs).
      by rewrite (unlinked_statement _ Hev).
    + right. exists e. split; [done|]. split.
      * repeat (rewrite elem_of_app || rewrite elem_of_cons). intuition.
      * repeat (rewrite not_elem_of_app || rewrite not_elem_of_cons).
        split_and!; try done. apply not_elem_of_nil.
    + by rewrite Hall.
    + intros Hcr. by apply Hcl.
    + intros Hcr. by apply Hcl.
Qed.

(** C5: a call whose connection fails raises the connection error and does
    nothing else: nothing is closed and no file is removed.  A call whose
    connection is made ends, after a commit or a rollback alike, by closing
    the cursor and the connection and then going through the batch files.
    When the attribute [clean_db_files] of [params] is absent or true, an
    unlink is attempted for every local file, in order, none of them
    exists afterwards, and the removal of a file that is not there is
    logged as an error while the loop goes on.  When the attribute is
    false nothing is unlinked and the files are as they were.  Either way
    the outcome of the call is that of the statements alone. *)
Theorem insert_datafiles_cleans_up cp dfs total extras w :
  (∀ e, connect E cp = Some e →
     _insert_datafiles E cp dfs p job_id total extras w = (w, Raise e)) ∧
  (connect E cp = None →
   ∃ w' r evs_load evs_clean,
     _insert_datafiles E cp dfs p job_id total extras w = (w', r) ∧
     trace w' =
       trace w ++ EvConnect :: evs_load ++ [EvCursorClose; EvConnectionClose] ++ evs_clean ∧
     unlinked evs_load = [] ∧
     ((r = Ok () ∧ EvCommit ∈ evs_load ∧ (EvRollback ∉ evs_load)) ∨
      (∃ e, r = Raise e ∧ EvRollback ∈ evs_load ∧ (EvCommit ∉ evs_load))) ∧
     r = match run_copies E (fs w) (bucket_store w) (db w) (copy_commands dfs extras) with
         | Ok _ => Ok ()
         | Raise e => Raise e
         end ∧
     session w' = None ∧
     Forall (λ ev, cleanup_event ev = true) evs_clean ∧
     (clean_db_files p = None ∨ clean_db_files p = Some true →
        unlinked evs_clean = tempfile <$> dfs ∧
        (∀ df, df ∈ dfs → fs w' !! tempfile df = None) ∧
        (∀ df, df ∈ dfs → fs w !! tempfile df = None →
           EvLog ERROR job_id
             ("Error removing temp file: " +:+
              str_exc E (Exn OSError ("No such file or directory: " +:+ tempfile df)) +:+ ".")
             ∈ evs_clean)) ∧
     (clean_db_files p = Some false →
        unlinked evs_clean = [] ∧ fs w' = fs w)).
Proof.
  split; [intros e Hc; by apply insert_datafiles_connect_fails|].
  intros Hc.
  destruct (insert_datafiles_finally cp dfs total extras w Hc)
    as (w' & r & evs_load & evs_clean & Hrun & Htr & Hload & Hend & Hr & Hse & Hev &
        Hun & Hgone & Hlog & Hkeep).
  exists w', r, evs_load, evs_clean.
  split; [exact Hrun|]. split; [exact Htr|]. split; [exact Hload|]. split; [exact Hend|].
  split; [exact Hr|]. split; [exact Hse|]. split; [exact Hev|].
  unfold clean_requested in Hun, Hgone, Hlog, Hkeep. split.
  - intros [Hflag|Hflag]; rewrite Hflag in Hun, Hgone, Hlog; simpl in Hun, Hgone, Hlog;
      (split; [exact Hun|]; split; [exact (Hgone eq_refl)|exact (Hlog eq_refl)]).
  - intros Hflag. rewrite Hflag in Hun, Hkeep. simpl in Hun, Hkeep.
    split; [exact Hun|exact (Hkeep eq_refl)].
Qed.

End LoaderOutcomes.

(** C1 at the stream of two tables whose second statement fails: the first
    statement was executed, yet table [orders] is as empty as before. *)
Lemma insert_datafiles_atomic_witness :
  ∃ w' evs,
    _insert_datafiles (Demo.demo_env true) Demo.warehouse Demo.failing_files
      Demo.demo_params "job1" 2 EmptyString Demo.failing_world
      = (w', Raise (Exn DatabaseError "relation events does not exist")) ∧
    db w' = ∅ ∧ session w' = None ∧
    trace w' = trace Demo.failing_world ++ evs ∧
    executed evs =
      ["COPY orders (b,val) FROM '/tmp/t1' WITH  JSON 'auto' TRUNCATECOLUMNS GZIP";
       "COPY events (x,val) FROM '/tmp/t2' WITH  JSON 'auto' TRUNCATECOLUMNS GZIP"] ∧
    EvRollback ∈ evs ∧ (EvCommit ∉ evs).
Proof.
  destruct (insert_datafiles_atomic (Demo.demo_env true) Demo.demo_params "job1"
              Demo.warehouse 2 EmptyString Demo.failing_world) as [Hfail _];
    [vm_compute; reflexivity|].
  apply (Hfail [mkDataFile "/tmp/t1" (None, None) "orders" "b,val"]
           (mkDataFile "/tmp/t2" (None, None) "events" "x,val") []
           (match run_copies (Demo.demo_env true) (fs Demo.failing_world)
                    (bucket_store Demo.failing_world) (db Demo.failing_world)
                    (copy_commands [mkDataFile "/tmp/t1" (None, None) "orders" "b,val"]
                       EmptyString) with
            | Ok v => v
            | Raise _ => ∅
            end)
           (Exn DatabaseError "relation events does not exist"));
    vm_compute; reflexivity.
Defined.

(** C5 at the scenario, where both statements succeed, and at the scenario
    whose second statement fails: without the attribute both files are
    removed, after the commit and after the rollback; with the attribute
    set to false both files stay. *)
Lemma insert_datafiles_cleans_up_witness :
  (∃ w' evs_load evs_clean,
     _insert_datafiles (Demo.demo_env true) Demo.warehouse Demo.demo_files
       Demo.demo_params "job1" 3 EmptyString Demo.demo_world = (w', Ok ()) ∧
     trace w' =
       trace Demo.demo_world ++
       EvConnect :: evs_load ++ [EvCursorClose; EvConnectionClose] ++ evs_clean ∧
     unlinked evs_clean = ["/tmp/t1"; "/tmp/t3"] ∧
     fs w' !! "/tmp/t1" = None ∧ fs w' !! "/tmp/t3" = None) ∧
  (∃ w' evs_load evs_clean,
     _insert_datafiles (Demo.demo_env true) Demo.warehouse Demo.failing_files
       Demo.demo_params "job1" 2 EmptyString Demo.failing_world
       = (w', Raise (Exn DatabaseError "relation events does not exist")) ∧
     trace w' =
       trace Demo.failing_world ++
       EvConnect :: evs_load ++ [EvCursorClose; EvConnectionClose] ++ evs_clean ∧
     unlinked evs_clean = ["/tmp/t1"; "/tmp/t2"] ∧
     fs w' !! "/tmp/t1" = None ∧ fs w' !! "/tmp/t2" = None) ∧
  (∃ w' evs_load evs_clean,
     _insert_datafiles (Demo.demo_env true) Demo.warehouse Demo.demo_files
       Cases.keep_params "job1" 3 EmptyString Demo.demo_world = (w', Ok ()) ∧
     trace w' =
       trace Demo.demo_world ++
       EvConnect :: evs_load ++ [EvCursorClose; EvConnectionClose] ++ evs_clean ∧
     unlinked evs_clean = [] ∧
     fs w' = fs Demo.demo_world).
Proof.
  split; [|split].
  - destruct (insert_datafiles_cleans_up (Demo.demo_env true) Demo.demo_params "job1"
                Demo.warehouse Demo.demo_files 3 EmptyString Demo.demo_world) as [_ Hmade].
    destruct Hmade
      as (w' & r & evs_load & evs_clean & Hrun & Htr & _ & _ & Hr & _ & _ & Hdel & _);
      [vm_compute; reflexivity|].
    destruct (Hdel (or_introl eq_refl)) as (Hun & Hgone & _).
    assert (r = Ok ()) as -> by (rewrite Hr; vm_compute; reflexivity).
    exists w', evs_load, evs_clean. split_and!; [exact Hrun|exact Htr|exact Hun|..].
    + apply (Hgone (mkDataFile "/tmp/t1" (None, None) "orders" "b,val")). by left.
    + apply (Hgone (mkDataFile "/tmp/t3" (None, None) "visits" "page,val")).
      right. by left.
  - destruct (insert_datafiles_cleans_up (Demo.demo_env true) Demo.demo_params "job1"
                Demo.warehouse Demo.failing_files 2 EmptyString Demo.failing_world)
      as [_ Hmade].
    destruct Hmade
      as (w' & r & evs_load & evs_clean & Hrun & Htr & _ & _ & Hr & _ & _ & Hdel & _);
      [vm_compute; reflexivity|].
    destruct (Hdel (or_introl eq_refl)) as (Hun & Hgone & _).
    assert (r = Raise (Exn DatabaseError "relation events does not exist")) as ->
      by (rewrite Hr; vm_compute; reflexivity).
    exists w', evs_load, evs_clean. split_and!; [exact Hrun|exact Htr|exact Hun|..].
    + apply (Hgone (mkDataFile "/tmp/t1" (None, None) "orders" "b,val")). by left.
    + apply (Hgone (mkDataFile "/tmp/t2" (None, None) "events" "x,val")).
      right. by left.
  - destruct (insert_datafiles_cleans_up (Demo.demo_env true) Cases.keep_params "job1"
                Demo.warehouse Demo.demo_files 3 EmptyString Demo.demo_world) as [_ Hmade].
    destruct Hmade
      as (w' & r & evs_load & evs_clean & Hrun & Htr & _ & _ & Hr & _ & _ & _ & Hkeep);
      [vm_compute; reflexivity|].
    destruct (Hkeep eq_refl) as [Hun Hfs].
    assert (r = Ok ()) as -> by (rewrite Hr; vm_compute; reflexivity).
    exists w', evs_load, evs_clean. split_and!; [exact Hrun|exact Htr|exact Hun|exact Hfs].
Defined.

(** C5 does not hold of every invocation: with a host that cannot be
    reached and no attribute [clean_db_files], the call raises the
    connection error and leaves the world as it found it, so that nothing
    is closed and the two local files are still there, with their lines. *)
Lemma connection_failure_removes_nothing :
  clean_db_files Demo.demo_params = None ∧
  _insert_datafiles (Demo.demo_env true) Demo.unreachable Demo.demo_files
    Demo.demo_params "job1" 3 EmptyString Demo.demo_world
    = (Demo.demo_world, Raise (Exn DatabaseError "could not connect to server")) ∧
  fs Demo.demo_world !! "/tmp/t1"
    = Some ["val:1,b:a" +:+ newline; "val:2,b:b" +:+ newline] ∧
  fs Demo.demo_world !! "/tmp/t3" = Some ["val:9,page:x" +:+ newline] ∧
  unlinked (trace Demo.demo_world) = [].
Proof. split_and!; vm_compute; reflexivity. Qed.

(** ** Denylist *)

Section DenylistFacts.

Context (E : env).

Lemma collect_step_ok (acc : gset pyval) fields w :
  collect_step acc (Ok fields) w =
  match fields !! "ip" with
  | Some v => (w, Ok ({[v]} ∪ acc))
  | None => (w, Raise (Exn KeyError "ip"))
  end.
Proof. unfold collect_step, row_ip. unfold_py. by destruct (fields !! "ip"). Qed.

Lemma collect_loop rows (acc : gset pyval) w :
  (∃ vs, read_ips rows = Some vs ∧
     for_fold rows collect_step acc w = (w, Ok (list_to_set vs ∪ acc))) ∨
  (read_ips rows = None ∧ ∃ e, for_fold rows collect_step acc w = (w, Raise e)).
Proof.
  revert acc. induction rows as [|[fields|e] rows IH]; intros acc.
  - left. exists []. split; [done|]. simpl. unfold ret. by rewrite (left_id_L ∅ (∪)).
  - rewrite for_fold_cons, collect_step_ok. simpl.
    destruct (fields !! "ip") as [v|]; [|right; split; [done|by eexists]].
    destruct (IH ({[v]} ∪ acc)) as [(vs & Hvs & Hrun)|(Hnone & e & Hrun)].
    + left. exists (v :: vs). rewrite Hvs. split; [done|]. rewrite Hrun. simpl.
      by rewrite (comm_L (∪) {[v]} (list_to_set vs)), <- (assoc_L (∪)).
    + right. rewrite Hnone. split; [done|]. by exists e.
  - right. split; [done|]. exists e. by rewrite for_fold_cons.
Qed.

(** The connection is made before the [try] statement: when it fails, the
    error reaches the caller. *)
Lemma get_blacklist_ips_connect_fails cp w e :
  connect E cp = Some e → get_blacklist_ips E cp w = (w, Raise e).
Proof. intros Hc. unfold get_blacklist_ips, _connect. unfold_py. by rewrite Hc. Qed.

(** C10, as the code has it: once the connection is made, reading the
    denylist raises nothing; it returns the set of the values of column [ip]
    when the query succeeds and every row can be read, and the empty
    dictionary otherwise; the connection is closed, and nothing is
    committed. *)
Theorem get_blacklist_ips_connected cp w :
  connect E cp = None →
  ∃ w' r,
    get_blacklist_ips E cp w = (w', Ok r) ∧
    r = match execute E "select distinct ip from blacklisted_ips" (fs w) (bucket_store w)
                (db w) with
        | Ok (_, rows) =>
            match read_ips rows with
            | Some vs => IpSet (list_to_set vs)
            | None => EmptyDict
            end
        | Raise _ => EmptyDict
        end ∧
    session w' = None ∧ db w' = db w ∧ fs w' = fs w ∧
    trace w' = trace w ++ [EvConnect; EvExecute "select distinct ip from blacklisted_ips";
                           EvConnectionClose].
Proof.
  intros Hc. unfold get_blacklist_ips, _connect, cursor_execute, connection_close, collect_ips.
  unfold_py. rewrite Hc. simpl.
  destruct (execute E _ (fs w) (bucket_store w) (db w)) as [[view rows]|e]; simpl.
  - match goal with |- context [for_fold rows collect_step ∅ ?w1] =>
      destruct (collect_loop rows ∅ w1) as [(vs & -> & Hrun)|(-> & e & Hrun)] end;
      rewrite Hrun; simpl; eexists _, _; (split; [reflexivity|]); simpl;
      rewrite <- ?app_assoc, ?(right_id_L ∅ (∪)); by split_and!.
  - eexists _, _. split; [reflexivity|]. simpl. rewrite <- ?app_assoc. by split_and!.
Qed.

End DenylistFacts.

(** C10 at a denylist of three rows for two addresses. *)
Lemma get_blacklist_ips_connected_witness :
  ∃ w',
    get_blacklist_ips (Demo.demo_env true) Demo.warehouse Demo.denylist_world
      = (w', Ok (IpSet {[PStr "10.0.0.1"; PStr "10.0.0.2"]})) ∧
    session w' = None.
Proof.
  destruct (get_blacklist_ips_connected (Demo.demo_env true) Demo.warehouse
              Demo.denylist_world) as (w' & r & Hrun & Hr & Hse & _);
    [vm_compute; reflexivity|].
  exists w'. split; [|exact Hse]. rewrite Hrun. do 2 f_equal. rewrite Hr.
  vm_compute. reflexivity.
Defined.

(** C10 as stated fails when the database cannot be reached: the error of
    the connection is raised to the caller, and no dictionary is returned. *)
Lemma get_blacklist_ips_raises :
  get_blacklist_ips (Demo.demo_env true) Demo.unreachable Demo.world0
    = (Demo.world0, Raise (Exn DatabaseError "could not connect to server")).
Proof. vm_compute. reflexivity. Qed.

(** On a row without the column, the empty dictionary is returned. *)
Lemma get_blacklist_ips_read_error :
  (get_blacklist_ips (Demo.demo_env true) Demo.warehouse Demo.broken_denylist_world).2
    = Ok EmptyDict.
Proof. vm_compute. reflexivity. Qed.

(** * Further properties *)

(** ** Keyset resolver *)

Section MoreColumnsFacts.

Import Columns.

Lemma mapped_parts_length cm parts : length (mapped_parts cm parts) ≤ length parts.
Proof.
  induction parts as [|part parts IH]; simpl; [done|].
  destruct (cm !! part) as [v|]; [destruct (truthy v)|]; simpl; lia.
Qed.

Lemma mapped_parts_elem cm parts c :
  c ∈ mapped_parts cm parts →
  ∃ part, part ∈ parts ∧
    ((cm !! part = None ∧ c = part) ∨ (cm !! part = Some (Some c) ∧ c ≠ EmptyString)).
Proof.
  induction parts as [|part parts IH]; simpl; [by intros ?%elem_of_nil|].
  destruct (cm !! part) as [v|] eqn:Hv.
  - destruct (truthy v) eqn:Ht.
    + intros [->|Hin]%elem_of_cons.
      * exists part. split; [by left|]. right. destruct v as [s|]; [|done]. simpl.
        split; [done|]. simpl in Ht. intros ->. done.
      * destruct (IH Hin) as (part' & Hin' & Hcase). exists part'. split; [by right|done].
    + intros Hin. destruct (IH Hin) as (part' & Hin' & Hcase).
      exists part'. split; [by right|done].
  - intros [->|Hin]%elem_of_cons.
    + exists part. split; [by left|]. by left.
    + destruct (IH Hin) as (part' & Hin' & Hcase). exists part'. split; [by right|done].
Qed.

(** X1: the resolver returns at most one column for each key part after
    the first and each value part, and exactly those many without mapping
    configuration. *)
Theorem get_columns_length ks :
  length (_get_columns ks) ≤ pred (length (key_parts ks)) + length (value_parts ks) ∧
  (mappings_given ks = None →
   length (_get_columns ks) = pred (length (key_parts ks)) + length (value_parts ks)).
Proof.
  unfold _get_columns. destruct (mappings_given ks) as [cm|].
  - split; [|done]. rewrite length_app, length_drop.
    pose proof (mapped_parts_length cm (key_parts ks)).
    pose proof (mapped_parts_length cm (value_parts ks)). lia.
  - rewrite length_app, length_drop. split; [lia|]. intros _. lia.
Qed.

(** X2: with a mapping dictionary in force, every column returned is the
    name of a part that has no mapping, or the mapped name, not empty, of a
    part: the name of a part mapped to [None] or to [''] is not returned on
    account of that part. *)
Theorem get_columns_elem ks cm c :
  mappings_given ks = Some cm →
  c ∈ _get_columns ks →
  ∃ part, part ∈ key_parts ks ++ value_parts ks ∧
    ((cm !! part = None ∧ c = part) ∨ (cm !! part = Some (Some c) ∧ c ≠ EmptyString)).
Proof.
  intros Hg. unfold _get_columns. rewrite Hg.
  intros [Hin|Hin]%elem_of_app.
  - assert (c ∈ mapped_parts cm (key_parts ks)) as Hin'.
    { apply list_elem_of_lookup in Hin as [i Hi]. rewrite lookup_drop in Hi.
      apply list_elem_of_lookup. by eexists. }
    destruct (mapped_parts_elem _ _ _ Hin') as (part & Hpart & Hcase).
    exists part. split; [|done]. apply elem_of_app. by left.
  - destruct (mapped_parts_elem _ _ _ Hin) as (part & Hpart & Hcase).
    exists part. split; [|done]. apply elem_of_app. by right.
Qed.

(** X3: suppressing a key part removes its name from the columns but not
    its value from the record: when the second key part is suppressed, the
    first column (resolved from a later part) receives the value the record
    has for the suppressed part. *)
Theorem suppressed_part_shifts_values ks cm d a rest v c kd ka key' value :
  mappings_given ks = Some cm →
  key_parts ks = d :: a :: rest →
  discriminator_suppressed ks = false →
  cm !! a = Some v → truthy v = false →
  _get_columns ks !! 0 = Some c → NoDup (_get_columns ks) →
  _get_columns ks = mapped_parts cm rest ++ mapped_parts cm (value_parts ks) ∧
  field_map (_get_columns ks) (kd :: ka :: key') value !! c = Some ka.
Proof.
  intros Hg Hkp Hd Ha Hv Hc Hnd. split.
  - revert Hd. unfold discriminator_suppressed, _get_columns. rewrite Hg, Hkp. simpl.
    rewrite Ha, Hv. destruct (cm !! d) as [vd|]; [|done].
    by destruct (truthy vd).
  - by rewrite (field_map_position _ _ _ 0 c Hnd Hc).
Qed.

End MoreColumnsFacts.

(** X2 at [Cases.shifted]: the column [url] stands for the part [url]. *)
Lemma get_columns_elem_witness :
  ∃ part, part ∈ ["type"; "date"; "url"] ++ ["count"] ∧
    ((({["date" := None]} : gmap string (option string)) !! part = None ∧ "url" = part) ∨
     (({["date" := None]} : gmap string (option string)) !! part = Some (Some "url") ∧
      "url" ≠ EmptyString)).
Proof.
  apply (get_columns_elem Cases.shifted {["date" := None]} "url").
  - vm_compute. reflexivity.
  - apply list_elem_of_In. vm_compute. by left.
Defined.

(** X3 at [Cases.shifted]: the date of the record is filed under [url]. *)
Lemma suppressed_part_shifts_values_witness :
  Columns._get_columns Cases.shifted = ["url"; "count"] ∧
  field_map (Columns._get_columns Cases.shifted)
    [PStr "t"; PStr "2014-01-01"; PStr "/index"] [PInt 3] !! "url"
    = Some (PStr "2014-01-01").
Proof.
  destruct (suppressed_part_shifts_values Cases.shifted {["date" := None]}
              "type" "date" ["url"] None "url" (PStr "t") (PStr "2014-01-01")
              [PStr "/index"] [PInt 3]) as [Hcols Hval];
    try (vm_compute; reflexivity).
  - apply NoDup_ListNoDup. vm_compute. repeat constructor; simpl; intuition discriminate.
  - split; [|exact Hval]. rewrite Hcols. vm_compute. reflexivity.
Defined.

(** ** Stream partitioner: errors and files *)

Section PartitionerErrors.

Context (E : env) (p : params) (job_id : string).

(** A record whose new partition key has no keyset raises [KeyError]
    before anything is done for it. *)
Lemma build_step_unknown_key st key value w k :
  head key = Some k → k ≠ pivot st → keysets p !! k = None →
  ∃ e, build_step E p job_id st (key, value) w = (w, Raise e) ∧ exn_cls e = KeyError.
Proof.
  intros Hk Hne Hks. destruct key as [|k' key]; simplify_eq/=.
  unfold build_step, key0, open_datafile, keyset_of. unfold_py.
  case_decide; [|done]. rewrite Hks. by eexists.
Qed.

(** A record whose new partition key has a keyset but is no string raises
    [TypeError] after the open file is closed and before a file is opened. *)
Lemma build_step_not_a_string st key value w k ks :
  head key = Some k → k ≠ pivot st → keysets p !! k = Some ks →
  (∀ s, k ≠ PStr s) →
  ∃ e,
    build_step E p job_id st (key, value) w =
      (World (fs w) (db w) (session w) (bucket_store w)
         (trace w ++ close_events (tmp st)), Raise e) ∧
    exn_cls e = TypeError.
Proof.
  intros Hk Hne Hks Hstr. destruct key as [|k' key]; simplify_eq/=.
  unfold build_step, key0, open_datafile, keyset_of, mktemp_prefix, close_if_open,
    close_events. unfold_py.
  case_decide; [|done]. rewrite Hks.
  destruct k as [| |s]; [| |by destruct (Hstr s)];
    (destruct (tmp st); simpl; [by eexists|]; rewrite app_nil_r; destruct w; by eexists).
Qed.

Lemma build_datafiles_raises pre r post w w1 st w2 e :
  for_fold pre (build_step E p job_id) build_init w = (w1, Ok st) →
  build_step E p job_id st r w1 = (w2, Raise e) →
  _build_datafiles E (pre ++ r :: post) p job_id w = (w2, Raise e).
Proof.
  intros Hpre Hstep. unfold _build_datafiles. unfold bind at 1.
  by rewrite for_fold_app, Hpre, for_fold_cons, Hstep.
Qed.

(** X4: a record whose partition key differs from the one before and has no
    keyset makes the partitioner raise [KeyError]; the world is as the
    records before it left it: the file open then is not closed, and the
    batch files written so far stay on disk. *)
Theorem build_datafiles_unknown_key pre key value post k w w1 st :
  for_fold pre (build_step E p job_id) build_init w = (w1, Ok st) →
  head key = Some k → k ≠ previous_key pre → keysets p !! k = None →
  ∃ e evs,
    _build_datafiles E (pre ++ (key, value) :: post) p job_id w = (w1, Raise e) ∧
    exn_cls e = KeyError ∧
    trace w1 = trace w ++ evs ∧ still_open evs = option_list (tmp st) ∧
    (tmp st = None ↔ pre = []) ∧
    (∀ df, df ∈ datafiles st → is_Some (fs w1 !! tempfile df)).
Proof.
  intros Hpre Hk Hne Hks.
  destruct (build_prefix_state _ _ _ _ _ _ _ Hpre) as (Hpivot & Hnone & evs & Htr & Hopen).
  destruct (build_step_unknown_key st key value w1 k Hk) as (e & Hstep & Hcls);
    [by rewrite Hpivot|done|].
  exists e, evs. split_and!; try done.
  - by eapply build_datafiles_raises.
  - eapply build_loop_frame in Hpre as (_ & _ & Hex & _); [done|].
    by intros df ?%elem_of_nil.
Qed.

(** X5: a record whose partition key differs from the one before and has a
    keyset, but is no string, makes the partitioner raise [TypeError] when
    the name of the temporary file is made: the file open until then has
    been closed, no file has been opened, and the files are as before. *)
Theorem build_datafiles_key_not_a_string pre key value post k ks w w1 st :
  for_fold pre (build_step E p job_id) build_init w = (w1, Ok st) →
  head key = Some k → k ≠ previous_key pre → keysets p !! k = Some ks →
  (∀ s, k ≠ PStr s) →
  ∃ e w2,
    _build_datafiles E (pre ++ (key, value) :: post) p job_id w = (w2, Raise e) ∧
    exn_cls e = TypeError ∧
    fs w2 = fs w1 ∧ trace w2 = trace w1 ++ close_events (tmp st).
Proof.
  intros Hpre Hk Hne Hks Hstr.
  destruct (build_prefix_state _ _ _ _ _ _ _ Hpre) as (Hpivot & _).
  destruct (build_step_not_a_string st key value w1 k ks Hk) as (e & Hstep & Hcls);
    [by rewrite Hpivot|done..|].
  eexists e, _. split; [by eapply build_datafiles_raises|]. by split_and!.
Qed.

(** With fresh temporary names: the loop lists each new file once, every
    new file did not exist before, and no other path is touched. *)
Lemma build_loop_fresh l st w w' st' :
  mktemp_fresh E →
  for_fold l (build_step E p job_id) st w = (w', Ok st') →
  (∀ df, df ∈ datafiles st → is_Some (fs w !! tempfile df)) →
  NoDup (tempfile <$> datafiles st) →
  (∀ f, tmp st = Some f → f ∈ tempfile <$> datafiles st) →
  ∃ newdfs,
    datafiles st' = datafiles st ++ newdfs ∧
    NoDup (tempfile <$> datafiles st') ∧
    (∀ df, df ∈ newdfs → fs w !! tempfile df = None) ∧
    (∀ path, path ∉ tempfile <$> datafiles st' → fs w' !! path = fs w !! path) ∧
    bucket_store w' = bucket_store w.
Proof.
  intros Hfresh. revert st w.
  induction l as [|[key value] l IH]; intros st w Hrun Hex Hnd Htmp.
  { simpl in Hrun. unfold ret in Hrun. simplify_eq. exists [].
    rewrite app_nil_r. split_and!; try done. by intros df ?%elem_of_nil. }
  rewrite for_fold_cons in Hrun.
  destruct (build_step E p job_id st (key, value) w) as [w1 [st1|e]] eqn:Hstep; [|done].
  apply build_step_ok in Hstep as
    [(f & Hk & Hf & -> & ->)|(s & ks & Hk & Hne & Hks & -> & ->)].
  - destruct (IH _ _ Hrun) as (newdfs & Hdfs & Hnd' & Hnew & Hrest & Hbs); simpl.
    + intros df Hdf. destruct (decide (tempfile df = f)) as [->|Hnf].
      * rewrite lookup_insert_eq. by eexists.
      * rewrite lookup_insert_ne by done. by apply Hex.
    + done.
    + done.
    + simpl in Hdfs, Hnd', Hnew, Hrest, Hbs. exists newdfs. split_and!; try done.
      * intros df Hdf. specialize (Hnew df Hdf).
        destruct (decide (f = tempfile df)) as [->|Hnf];
          [by rewrite lookup_insert_eq in Hnew|by rewrite lookup_insert_ne in Hnew].
      * intros path Hpath. rewrite Hrest by done. apply lookup_insert_ne.
        intros <-. apply Hpath. rewrite Hdfs, fmap_app. apply elem_of_app. left.
        by apply Htmp.
  - set (f1 := mktemp E (fs w) s) in *.
    assert (fs w !! f1 = None) as Hf1 by apply Hfresh.
    assert (f1 ∉ tempfile <$> datafiles st) as Hnotin.
    { intros (df & Heq & Hdf)%list_elem_of_fmap. apply Hex in Hdf as [c Hc].
      rewrite <- Heq, Hf1 in Hc. done. }
    destruct (IH _ _ Hrun) as (newdfs & Hdfs & Hnd' & Hnew & Hrest & Hbs); simpl.
    + intros df [Hdf|Hdf%list_elem_of_singleton]%elem_of_app; [|subst df; simpl].
      * destruct (decide (tempfile df = f1)) as [->|Hnf].
        -- rewrite lookup_insert_eq. by eexists.
        -- rewrite lookup_insert_ne by done. by apply Hex.
      * rewrite lookup_insert_eq. by eexists.
    + rewrite fmap_app. simpl. apply NoDup_app. split_and!; [done| |apply NoDup_singleton].
      intros x Hx ->%list_elem_of_singleton. done.
    + intros f [= <-]. rewrite fmap_app. apply elem_of_app. right. by left.
    + simpl in Hdfs, Hnd', Hnew, Hrest, Hbs. eexists (_ :: newdfs).
      split_and!; try done.
      * by rewrite Hdfs, <- app_assoc.
      * intros df [->|Hdf]%elem_of_cons; [done|]. specialize (Hnew df Hdf).
        destruct (decide (f1 = tempfile df)) as [Heq|Hnf];
          [by rewrite Heq, lookup_insert_eq in Hnew|by rewrite lookup_insert_ne in Hnew].
      * intros path Hpath. rewrite Hrest by done. apply lookup_insert_ne.
        intros <-. apply Hpath. rewrite Hdfs, !fmap_app. apply elem_of_app. left.
        apply elem_of_app. right. by left.
Qed.

Lemma build_datafiles_fresh stream w w' dfs n :
  mktemp_fresh E →
  _build_datafiles E stream p job_id w = (w', Ok (dfs, n)) →
  NoDup (tempfile <$> dfs) ∧
  (∀ df, df ∈ dfs → fs w !! tempfile df = None) ∧
  (∀ path, path ∉ tempfile <$> dfs → fs w' !! path = fs w !! path) ∧
  bucket_store w' = bucket_store w.
Proof.
  intros Hfresh. unfold _build_datafiles. unfold bind at 1.
  destruct (for_fold stream _ build_init w) as [w1 [st1|e]] eqn:Hrun; [|done].
  apply build_loop_fresh in Hrun as (newdfs & Hdfs & Hnd & Hnew & Hrest & Hbs);
    [|done|by intros df ?%elem_of_nil|apply NoDup_nil_2|done].
  simpl in Hdfs. rewrite <- Hdfs in Hnew. unfold close_if_open. unfold_py.
  destruct (tmp st1) as [f|]; intros; by simplify_eq/=.
Qed.

(** X6: with temporary names that do not exist when they are made, the
    batch files returned have distinct paths, none of which existed before
    the call; each exists afterwards; no other path is created, changed or
    removed; the database and the object store are as before. *)
Theorem build_datafiles_fresh_files stream w w' dfs n :
  mktemp_fresh E →
  _build_datafiles E stream p job_id w = (w', Ok (dfs, n)) →
  NoDup (tempfile <$> dfs) ∧
  (∀ df, df ∈ dfs → fs w !! tempfile df = None ∧ is_Some (fs w' !! tempfile df)) ∧
  (∀ path, path ∉ tempfile <$> dfs → fs w' !! path = fs w !! path) ∧
  db w' = db w ∧ session w' = session w ∧ bucket_store w' = bucket_store w.
Proof.
  intros Hfresh Hrun.
  destruct (build_datafiles_fresh _ _ _ _ _ Hfresh Hrun) as (Hnd & Hnew & Hrest & Hbs).
  destruct (build_datafiles_frame _ _ _ _ _ _ _ _ Hrun) as (Hdb & Hse & Hex & _).
  split_and!; try done. intros df Hdf. split; [by apply Hnew|by apply Hex].
Qed.

End PartitionerErrors.

(** ** Bulk loader and the direct pipeline *)

Section MoreLoaderFacts.

Context (E : env) (p : params) (job_id : string).

(** Once the connection is made: the outcome and the database are those of
    the statements, the connection is closed, the object store is as
    before, and of the local files only those of the batch files may go. *)
Lemma insert_datafiles_effect cp dfs total extras w :
  connect E cp = None →
  ∃ w',
    _insert_datafiles E cp dfs p job_id total extras w = (w', load_outcome E dfs extras w) ∧
    db w' = load_db E dfs extras w ∧ session w' = None ∧
    bucket_store w' = bucket_store w ∧
    (clean_requested p = true →
       (∀ df, df ∈ dfs → fs w' !! tempfile df = None) ∧
       (∀ path, path ∉ tempfile <$> dfs → fs w' !! path = fs w !! path)) ∧
    (clean_requested p = false → fs w' = fs w).
Proof.
  intros Hc. unfold load_outcome, load_db.
  destruct (run_copies_cases E (fs w) (bucket_store w) (db w) dfs extras)
    as [[view' Hok]|(pre & df & post & view1 & e & -> & Hpre & Hdf & Hall)].
  - destruct (insert_datafiles_commits E p job_id cp dfs total extras w view' Hc Hok)
      as (evs & w1 & Hclean & Hrun & _).
    destruct (cleanup_loop_spec E p job_id dfs
                (World (fs w) view' None (bucket_store w)
                   (trace w ++ EvConnect :: evs ++
                    [EvCommit;
                     EvLog INFO job_id ("Processed " +:+ pretty total +:+ " records in " +:+
                                        pretty (size (keysets p)) +:+ " keysets.");
                     EvCursorClose; EvConnectionClose])))
      as (w'' & evsc & Hclean' & Hdb & Hse & Hbs & _ & _ & _ & Hcl & Hkeep).
    rewrite Hclean in Hclean'. injection Hclean' as <-.
    exists w1. rewrite Hok. split_and!; try done.
    intros Hcr. destruct (Hcl Hcr) as (Hgone & _ & Hother & _). by split.
  - destruct (insert_datafiles_rolls_back E p job_id cp pre df post total extras w view1 e
                Hc Hpre Hdf) as (evs & w1 & Hclean & Hrun & _).
    destruct (cleanup_loop_spec E p job_id (pre ++ df :: post)
                (World (fs w) (db w) None (bucket_store w)
                   (trace w ++ EvConnect :: evs ++
                    [EvLog ERROR job_id
                       ("Error persisting results. Rolling back: " +:+ exn_message e);
                     EvLog ERROR job_id (format_exc E e);
                     EvRollback; EvCursorClose; EvConnectionClose])))
      as (w'' & evsc & Hclean' & Hdb & Hse & Hbs & _ & _ & _ & Hcl & Hkeep).
    rewrite Hclean in Hclean'. injection Hclean' as <-.
    exists w1. rewrite Hall. split_and!; try done.
    intros Hcr. destruct (Hcl Hcr) as (Hgone & _ & Hother & _). by split.
Qed.

(** X7: once the connection is made, the loader changes no local file
    other than those of its batch files, whatever the flag and the outcome,
    and it leaves the object store as it was. *)
Theorem insert_datafiles_frame cp dfs total extras w :
  connect E cp = None →
  ∃ w' r,
    _insert_datafiles E cp dfs p job_id total extras w = (w', r) ∧
    (∀ path, path ∉ tempfile <$> dfs → fs w' !! path = fs w !! path) ∧
    bucket_store w' = bucket_store w.
Proof.
  intros Hc.
  destruct (insert_datafiles_effect cp dfs total extras w Hc)
    as (w' & Hrun & _ & _ & Hbs & Hclean & Hkeep).
  exists w', (load_outcome E dfs extras w). split_and!; [done| |done].
  intros path Hpath. destruct (clean_requested p) eqn:Hcr.
  - by apply Hclean.
  - by rewrite Hkeep.
Qed.

(** Every batch file of the partitioner has no remote reference. *)
Lemma build_loop_local l st w w' st' :
  for_fold l (build_step E p job_id) st w = (w', Ok st') →
  Forall (λ df, s3 df = (None, None)) (datafiles st) →
  Forall (λ df, s3 df = (None, None)) (datafiles st').
Proof.
  revert st w. induction l as [|[key value] l IH]; intros st w Hrun Hall.
  { simpl in Hrun. unfold ret in Hrun. by simplify_eq. }
  rewrite for_fold_cons in Hrun.
  destruct (build_step E p job_id st (key, value) w) as [w1 [st1|e]] eqn:Hstep; [|done].
  apply build_step_ok in Hstep as
    [(f & Hk & Hf & -> & ->)|(s & ks & Hk & Hne & Hks & -> & ->)].
  - by eapply IH.
  - eapply IH; [done|]. simpl. apply Forall_app. split; [done|]. by repeat constructor.
Qed.

(** X8: the batch files the partitioner returns carry no remote reference,
    so the statement the loader makes for each of them reads the local
    file. *)
Theorem build_datafiles_local_sources stream w w' dfs n extras :
  _build_datafiles E stream p job_id w = (w', Ok (dfs, n)) →
  ∀ df, df ∈ dfs →
    s3 df = (None, None) ∧
    copy_command df extras =
      "COPY " +:+ tablename df +:+ " (" +:+ columns df +:+ ") FROM '" +:+ tempfile df +:+
      "' WITH " +:+ extras +:+ " JSON 'auto' TRUNCATECOLUMNS GZIP".
Proof.
  unfold _build_datafiles. unfold bind at 1.
  destruct (for_fold stream _ build_init w) as [w1 [st1|e]] eqn:Hrun; [|done].
  apply build_loop_local in Hrun; [|by constructor].
  intros Hret. assert (dfs = datafiles st1) as ->.
  { revert Hret. unfold close_if_open. unfold_py.
    destruct (tmp st1); intros; by simplify_eq. }
  intros df Hdf. apply (proj1 (Forall_forall _ _) Hrun) in Hdf.
  split; [done|]. unfold copy_command, copy_source. by rewrite Hdf.
Qed.

(** X9: the direct pipeline, with fresh temporary names and clean-up not
    switched off, once the partitioner has returned and the connection is
    made: its outcome is that of the statements, with the number of records
    as the value; the database holds the outcome of all statements or is as
    before; and the local files are exactly those of before the call. *)
Theorem insert_postgres_effect stream host database user password w w1 dfs n :
  mktemp_fresh E → clean_requested p = true →
  _build_datafiles E stream p job_id w = (w1, Ok (dfs, n)) →
  connect E (ConnParams host None database user password) = None →
  ∃ w',
    insert_postgres E stream p job_id host database user password w =
      (w', match load_outcome E dfs EmptyString w1 with
           | Ok _ => Ok (length stream)
           | Raise e => Raise e
           end) ∧
    db w' = load_db E dfs EmptyString w1 ∧
    fs w' = fs w ∧ session w' = None.
Proof.
  intros Hfresh Hcr Hbuild Hc.
  destruct (build_datafiles_count_ok _ _ _ _ _ _ _ _ Hbuild) as [_ Hn].
  destruct (build_datafiles_fresh _ _ _ _ _ _ _ _ Hfresh Hbuild) as (_ & Hnew & Hrest & _).
  destruct (insert_datafiles_effect (ConnParams host None database user password)
              dfs n EmptyString w1 Hc) as (w' & Hrun & Hdb & Hse & _ & Hclean & _).
  destruct (Hclean Hcr) as [Hgone Hother].
  exists w'. split_and!; try done.
  - unfold insert_postgres. unfold bind at 1. rewrite Hbuild. unfold bind at 1.
    rewrite Hrun. rewrite <- Hn. by destruct (load_outcome E dfs EmptyString w1) as [[]|e].
  - apply map_eq. intros path.
    destruct (decide (path ∈ tempfile <$> dfs)) as [Hin|Hout].
    + apply list_elem_of_fmap in Hin as (df & -> & Hdf).
      by rewrite Hgone, Hnew.
    + by rewrite Hother, Hrest.
Qed.

(** X10: when the connection cannot be made, the direct pipeline raises
    the error of the connection after the partitioner has written its batch
    files, and these are all left on disk. *)
Theorem insert_postgres_connect_fails stream host database user password w w1 dfs n e :
  _build_datafiles E stream p job_id w = (w1, Ok (dfs, n)) →
  connect E (ConnParams host None database user password) = Some e →
  insert_postgres E stream p job_id host database user password w = (w1, Raise e) ∧
  (∀ df, df ∈ dfs → is_Some (fs w1 !! tempfile df)) ∧
  db w1 = db w.
Proof.
  intros Hbuild Hc.
  destruct (build_datafiles_frame _ _ _ _ _ _ _ _ Hbuild) as (Hdb & _ & Hex & _).
  split_and!; try done.
  unfold insert_postgres. unfold bind at 1. rewrite Hbuild. unfold bind at 1.
  by rewrite (insert_datafiles_connect_fails E p job_id _ dfs n EmptyString w1 e Hc).
Qed.

(** X11: on the empty stream the direct pipeline still connects: it
    commits an empty transaction and returns zero, or raises the error of
    the connection. *)
Theorem insert_postgres_empty host database user password w :
  (connect E (ConnParams host None database user password) = None →
   ∃ w',
     insert_postgres E [] p job_id host database user password w = (w', Ok 0) ∧
     db w' = db w ∧ fs w' = fs w ∧ session w' = None ∧
     trace w' =
       trace w ++
       [EvConnect; EvCommit;
        EvLog INFO job_id ("Processed " +:+ pretty 0 +:+ " records in " +:+
                           pretty (size (keysets p)) +:+ " keysets.");
        EvCursorClose; EvConnectionClose]) ∧
  (∀ e, connect E (ConnParams host None database user password) = Some e →
        insert_postgres E [] p job_id host database user password w = (w, Raise e)).
Proof.
  split.
  - intros Hc. unfold insert_postgres, _insert_datafiles, _connect, load_succeeded,
      load_finally, load_all, connection_commit, cursor_close, connection_close.
    unfold_py. rewrite Hc. simpl. eexists. split; [reflexivity|]. simpl.
    rewrite <- !app_assoc. by split_and!.
  - intros e Hc. unfold insert_postgres, _insert_datafiles, _connect. unfold_py.
    by rewrite Hc.
Qed.

End MoreLoaderFacts.

(** ** Cloud stager and the staged pipeline *)

Lemma staged_key_inj job_id df1 df2 :
  staged_key job_id df1 = staged_key job_id df2 → tempfile df1 = tempfile df2.
Proof.
  unfold staged_key. intros Heq%(inj (String.append job_id)).
  by apply (inj (String.append "-")) in Heq.
Qed.

Lemma staged_key_truthy job_id df : truthy (Some (staged_key job_id df)) = true.
Proof.
  unfold staged_key, truthy. destruct job_id; [done|done].
Qed.

Section MoreStagerFacts.

Context (E : env) (job_id : string) (bucket_name : option string).

(** What one upload that succeeds stores. *)
Lemma upload_step_stores rval df w w' rval' :
  upload_step E job_id bucket_name rval df w = (w', Ok rval') →
  ∃ content,
    fs w !! tempfile df = Some content ∧
    bucket_store w' = <[(bucket_name, staged_key job_id df) := content]> (bucket_store w).
Proof.
  unfold upload_step, read_file, set_contents, staged_key. unfold_py.
  destruct (fs w !! tempfile df) as [content|]; [|done].
  destruct (s3_put E bucket_name _ content _) as [e|]; simpl; [done|].
  intros. simplify_eq. by exists content.
Qed.

(** The stager stores each file it is given under its key, with the
    contents the file has, and stores nothing else. *)
Lemma upload_loop_stores dfs rval w w' rval' :
  for_fold dfs (upload_step E job_id bucket_name) rval w = (w', Ok rval') →
  (∀ df, df ∈ dfs →
     is_Some (fs w !! tempfile df) ∧
     bucket_store w' !! (bucket_name, staged_key job_id df) = fs w !! tempfile df) ∧
  (∀ k, k ∉ (λ df, (bucket_name, staged_key job_id df)) <$> dfs →
     bucket_store w' !! k = bucket_store w !! k).
Proof.
  revert rval w. induction dfs as [|df dfs IH]; intros rval w Hrun.
  { simpl in Hrun. unfold ret in Hrun. simplify_eq. split; [|done].
    by intros df ?%elem_of_nil. }
  rewrite for_fold_cons in Hrun.
  destruct (upload_step E job_id bucket_name rval df w) as [w1 [rval1|e]] eqn:Hstep;
    [|done].
  pose proof (upload_step_frame _ _ _ _ _ _ _ _ Hstep) as (Hfs & _).
  apply upload_step_stores in Hstep as (content & Hc & Hbs).
  apply IH in Hrun as [Hin Hout]. split.
  - intros df' [->|Hdf]%elem_of_cons.
    + split; [by eexists|].
      destruct (decide ((bucket_name, staged_key job_id df)
                        ∈ (λ df, (bucket_name, staged_key job_id df)) <$> dfs))
        as [(df2 & Heq & Hdf2)%list_elem_of_fmap|Hnotin].
      * injection Heq as Heq. pose proof (staged_key_inj _ _ _ Heq) as Ht.
        destruct (Hin df2 Hdf2) as [_ Hlook]. rewrite Heq, Ht, <- Hfs. exact Hlook.
      * by rewrite Hout, Hbs, lookup_insert_eq.
    + destruct (Hin df' Hdf) as [Hex Hlook]. by rewrite <- Hfs.
  - intros k Hk. rewrite fmap_cons, not_elem_of_cons in Hk. destruct Hk as [Hne Hk].
    rewrite Hout by done. rewrite Hbs. by rewrite lookup_insert_ne.
Qed.

(** X12: when the stager returns, the object store holds, for every batch
    file, the contents of the local file under the bucket and the key
    [<job-id>-<local-path>]; every other object of the store, the local
    files and the database are as before. *)
Theorem upload_s3_stores dfs w w' rval :
  _upload_s3 E dfs job_id bucket_name w = (w', Ok rval) →
  (∀ df, df ∈ dfs →
     is_Some (fs w !! tempfile df) ∧
     bucket_store w' !! (bucket_name, job_id +:+ "-" +:+ tempfile df) = fs w !! tempfile df) ∧
  (∀ k, k ∉ (λ df, (bucket_name, job_id +:+ "-" +:+ tempfile df)) <$> dfs →
     bucket_store w' !! k = bucket_store w !! k) ∧
  fs w' = fs w ∧ db w' = db w.
Proof.
  intros Hrun. pose proof (upload_loop_frame _ _ _ _ _ _ _ _ Hrun) as (Hfs & Hdb & _).
  apply upload_loop_stores in Hrun as [Hin Hout]. by split_and!.
Qed.

(** X13: when the local file of a batch file is missing, the stager raises
    [IOError] at that file; the files before it stay stored (nothing is
    retracted), and nothing is returned for them. *)
Theorem upload_s3_missing_file pre df post w :
  (∀ df', df' ∈ pre → is_Some (fs w !! tempfile df')) →
  (∀ key content md5, s3_put E bucket_name key content md5 = None) →
  fs w !! tempfile df = None →
  ∃ w' e,
    _upload_s3 E (pre ++ df :: post) job_id bucket_name w = (w', Raise e) ∧
    exn_cls e = IOError ∧
    (∀ df', df' ∈ pre →
       bucket_store w' !! (bucket_name, job_id +:+ "-" +:+ tempfile df') =
       fs w !! tempfile df') ∧
    fs w' = fs w.
Proof.
  intros Hex Hput Hmissing.
  destruct (upload_loop_total E job_id bucket_name pre [] w Hex Hput) as (w1 & Hpre).
  pose proof (upload_loop_frame _ _ _ _ _ _ _ _ Hpre) as (Hfs & _).
  pose proof (upload_loop_stores _ _ _ _ _ Hpre) as [Hin _].
  exists w1. eexists. split_and!.
  - unfold _upload_s3. rewrite for_fold_app, Hpre, for_fold_cons.
    unfold upload_step, read_file. unfold_py. rewrite Hfs, Hmissing. reflexivity.
  - done.
  - intros df' Hdf. by destruct (Hin df' Hdf).
  - done.
Qed.

End MoreStagerFacts.

(** X14: the statement for a staged batch file reads the staged object
    when the bucket name is a string that is not empty; when the bucket name
    is [None] (no [bucket_name] was passed to [insert_redshift]) or empty,
    it reads the local file, although the file was uploaded. *)
Theorem staged_copy_source job_id bucket_name df :
  copy_source (staged job_id bucket_name df) =
  if truthy bucket_name
  then "s3://" +:+ str_opt bucket_name +:+ "/" +:+ job_id +:+ "-" +:+ tempfile df
  else tempfile df.
Proof.
  unfold copy_source.
  change (s3 (staged job_id bucket_name df))
    with (bucket_name, Some (staged_key job_id df)).
  change (tempfile (staged job_id bucket_name df)) with (tempfile df).
  cbv beta iota. rewrite staged_key_truthy.
  by destruct (truthy bucket_name).
Qed.

Section StagedPipeline.

Context (E : env) (p : params) (job_id : string).

(** X15: the staged pipeline, with fresh temporary names and clean-up not
    switched off, once the batch files are staged, credentials obtained and
    the connection made: its outcome is that of the statements, each made
    for the staged batch file with the credentials clause; the database
    holds the outcome of all statements or is as before; the local files
    are those of before the call; and the staged objects stay in the store,
    also when the load fails. *)
Theorem insert_redshift_effect stream cp bucket_name w w1 dfs n w2 rval
    access_key secret_key token :
  mktemp_fresh E → clean_requested p = true →
  _build_datafiles E stream p job_id w = (w1, Ok (dfs, n)) →
  _upload_s3 E dfs job_id bucket_name w1 = (w2, Ok rval) →
  instance_credentials E = Ok (access_key, secret_key, token) →
  connect E cp = None →
  let credentials :=
    "credentials 'aws_access_key_id=" +:+ access_key +:+
    ";aws_secret_access_key=" +:+ secret_key +:+ ";token=" +:+ token +:+ "'" in
  ∃ w',
    insert_redshift E stream p job_id cp bucket_name w =
      (w', match load_outcome E (staged job_id bucket_name <$> dfs) credentials w2 with
           | Ok _ => Ok (length stream)
           | Raise e => Raise e
           end) ∧
    db w' = load_db E (staged job_id bucket_name <$> dfs) credentials w2 ∧
    fs w' = fs w ∧ session w' = None ∧
    bucket_store w' = bucket_store w2 ∧
    (∀ df, df ∈ dfs →
       bucket_store w' !! (bucket_name, job_id +:+ "-" +:+ tempfile df) =
       fs w1 !! tempfile df).
Proof.
  intros Hfresh Hcr Hbuild Hup Hcred Hc credentials.
  destruct (build_datafiles_count_ok _ _ _ _ _ _ _ _ Hbuild) as [_ Hn].
  destruct (build_datafiles_fresh _ _ _ _ _ _ _ _ Hfresh Hbuild) as (_ & Hnew & Hrest & _).
  pose proof (upload_loop_frame _ _ _ _ _ _ _ _ Hup) as (Hfs2 & _).
  pose proof (upload_loop_stores _ _ _ _ _ _ _ _ Hup) as [Hin _].
  apply upload_loop_ok in Hup as Hrval. simpl in Hrval. subst rval.
  destruct (insert_datafiles_effect E p job_id cp (staged job_id bucket_name <$> dfs) n
              credentials w2 Hc) as (w' & Hrun & Hdb & Hse & Hbs & Hclean & _).
  destruct (Hclean Hcr) as [Hgone Hother].
  assert (tempfile <$> (staged job_id bucket_name <$> dfs) = tempfile <$> dfs) as Htf.
  { rewrite <- list_fmap_compose. by apply list_fmap_ext. }
  exists w'. split_and!; try done.
  - unfold insert_redshift. unfold bind at 1. rewrite Hbuild. unfold bind at 1.
    rewrite Hup. unfold bind at 1. unfold _get_sts_credentials. rewrite Hcred.
    unfold ret at 1. unfold bind at 1. fold credentials. rewrite Hrun, <- Hn.
    by destruct (load_outcome E _ credentials w2) as [[]|e].
  - apply map_eq. intros path.
    destruct (decide (path ∈ tempfile <$> dfs)) as [Hin'|Hout].
    + apply list_elem_of_fmap in Hin' as (df & -> & Hdf).
      assert (fs w' !! tempfile df = None) as Hg.
      { apply (Hgone (staged job_id bucket_name df)).
        apply list_elem_of_fmap. by exists df. }
      by rewrite Hg, Hnew.
    + rewrite Hother by (by rewrite Htf). by rewrite Hfs2, Hrest.
  - intros df Hdf. rewrite Hbs. by destruct (Hin df Hdf).
Qed.

End StagedPipeline.

(** ** Denylist maintenance *)

(** X16: once the connection is made, pruning the denylist commits what
    the statement did to the table and returns, or rolls back and raises the
    error of the statement with the database as before; in both cases the
    connection is closed.  When the connection cannot be made its error is
    raised and nothing else happens. *)
Theorem delete_old_blacklist_ips_atomic E cp w :
  (connect E cp = None →
   ∃ w',
     delete_old_blacklist_ips E cp w =
       (w', match execute E "delete from blacklisted_ips where date < current_date - 7"
                    (fs w) (bucket_store w) (db w) with
            | Ok _ => Ok ()
            | Raise e => Raise e
            end) ∧
     db w' = match execute E "delete from blacklisted_ips where date < current_date - 7"
                     (fs w) (bucket_store w) (db w) with
             | Ok (view, _) => view
             | Raise _ => db w
             end ∧
     session w' = None ∧ fs w' = fs w ∧
     trace w' =
       trace w ++
       [EvConnect; EvExecute "delete from blacklisted_ips where date < current_date - 7";
        match execute E "delete from blacklisted_ips where date < current_date - 7"
                (fs w) (bucket_store w) (db w) with
        | Ok _ => EvCommit
        | Raise _ => EvRollback
        end;
        EvConnectionClose]) ∧
  (∀ e, connect E cp = Some e → delete_old_blacklist_ips E cp w = (w, Raise e)).
Proof.
  split.
  - intros Hc. unfold delete_old_blacklist_ips, _connect, cursor_execute,
      connection_commit, connection_rollback, connection_close.
    unfold_py. rewrite Hc. simpl.
    destruct (execute E _ (fs w) (bucket_store w) (db w)) as [[view rows]|e]; simpl;
      (eexists; split; [reflexivity|]); simpl; rewrite <- ?app_assoc; by split_and!.
  - intros e Hc. unfold delete_old_blacklist_ips, _connect. unfold_py. by rewrite Hc.
Qed.

(** ** Marble insertion *)

Lemma append_self_nil (s t : string) : s = s +:+ t → t = EmptyString.
Proof.
  induction s as [|a s IH]; intros Heq.
  - symmetry. exact Heq.
  - apply IH. change (String a s = String a (s +:+ t)) in Heq. by injection Heq.
Qed.

(** X17: two partitions of a table get the same tag exactly when both are
    false as conditions ([None], [0] and [''] all get the bare tag of the
    table) or both are true and print alike (as [1] and ['1'] do). *)
Theorem part_tag_eq name p1 p2 :
  part_tag name p1 = part_tag name p2 ↔
  (py_truthy p1 = false ∧ py_truthy p2 = false) ∨
  (py_truthy p1 = true ∧ py_truthy p2 = true ∧ py_str p1 = py_str p2).
Proof.
  unfold part_tag. destruct (py_truthy p1), (py_truthy p2); split.
  - intros Heq. right. split_and!; [done..|].
    apply (inj (String.append ("hustle:" +:+ name))) in Heq.
    by apply (inj (String.append ":")) in Heq.
  - intros [[? _]|(_ & _ & ->)]; done.
  - intros Heq. symmetry in Heq. apply append_self_nil in Heq. done.
  - intros [[? _]|(_ & ? & _)]; done.
  - intros Heq. apply append_self_nil in Heq. done.
  - intros [[_ ?]|(? & _ & _)]; done.
  - intros _. by left.
  - done.
Qed.

Section MarbleFacts.

Context (H : hustle) (job_id : string).

Lemma push_partition_ok part file_ w content :
  ddfs_push H (part_tag (table_tag_name H) part) [file_] = None →
  fs w !! file_ = Some content →
  push_partition H job_id (part, file_) w =
    (World (delete file_ (fs w)) (db w) (session w) (bucket_store w)
       (trace w ++
        [EvLog INFO job_id
           ("Pushed tag " +:+ part_tag (table_tag_name H) part +:+ " for partition " +:+
            py_str part);
         EvLog INFO job_id ("Nuking local marble file " +:+ file_);
         EvUnlink file_]), Ok ()).
Proof.
  intros Hpush Hc. unfold push_partition, os_unlink. unfold_py. rewrite Hpush. simpl.
  rewrite Hc. simpl. by rewrite <- !app_assoc.
Qed.

Lemma push_partition_refused part file_ w e :
  ddfs_push H (part_tag (table_tag_name H) part) [file_] = Some e →
  push_partition H job_id (part, file_) w = (w, Raise e).
Proof. intros Hpush. unfold push_partition. unfold_py. by rewrite Hpush. Qed.

Lemma push_partition_missing part file_ w :
  ddfs_push H (part_tag (table_tag_name H) part) [file_] = None →
  fs w !! file_ = None →
  ∃ w' e,
    push_partition H job_id (part, file_) w = (w', Raise e) ∧
    exn_cls e = OSError ∧ fs w' = fs w ∧
    trace w' =
      trace w ++
      [EvLog INFO job_id
         ("Pushed tag " +:+ part_tag (table_tag_name H) part +:+ " for partition " +:+
          py_str part);
       EvLog INFO job_id ("Nuking local marble file " +:+ file_);
       EvUnlink file_].
Proof.
  intros Hpush Hc. unfold push_partition, os_unlink. unfold_py. rewrite Hpush. simpl.
  rewrite Hc. simpl. eexists _, _. split; [reflexivity|]. simpl.
  by rewrite <- !app_assoc.
Qed.

(** The loop over partition files that are all there, with every push
    accepted. *)
Lemma push_loop_ok parts w :
  (∀ pf, pf ∈ parts → ddfs_push H (part_tag (table_tag_name H) pf.1) [pf.2] = None) →
  NoDup parts.*2 →
  (∀ pf, pf ∈ parts → is_Some (fs w !! pf.2)) →
  ∃ w' evs,
    for_each parts (push_partition H job_id) w = (w', Ok ()) ∧
    (∀ pf, pf ∈ parts → fs w' !! pf.2 = None) ∧
    (∀ path, path ∉ parts.*2 → fs w' !! path = fs w !! path) ∧
    db w' = db w ∧
    trace w' = trace w ++ evs ∧ unlinked evs = parts.*2.
Proof.
  revert w. induction parts as [|[part file_] parts IH]; intros w Hpush Hnd Hex.
  { exists w, []. rewrite app_nil_r. split_and!; try done. by intros pf ?%elem_of_nil. }
  rewrite fmap_cons in Hnd. apply NoDup_cons in Hnd as [Hnotin Hnd].
  destruct (Hex (part, file_)) as [content Hc]; [by left|]. simpl in Hc.
  pose proof (push_partition_ok part file_ w content (Hpush (part, file_) ltac:(by left)) Hc)
    as Hstep.
  match type of Hstep with _ = (?w1, _) =>
    destruct (IH w1) as (w' & evs & Hrun & Hgone & Hother & Hdb & Htr & Hun) end.
  - intros pf Hpf. apply Hpush. by right.
  - done.
  - intros pf Hpf. simpl. rewrite lookup_delete_ne.
    + apply Hex. by right.
    + intros ->. apply Hnotin. apply list_elem_of_fmap. by exists pf.
  - simpl in Hother, Hdb, Htr. exists w'. eexists (_ ++ evs).
    rewrite for_each_cons, Hstep. split_and!; try done.
    + intros pf [->|Hpf]%elem_of_cons; [|by apply Hgone]. simpl.
      rewrite Hother by done. apply lookup_delete_eq.
    + intros path Hpath. rewrite fmap_cons, not_elem_of_cons in Hpath.
      destruct Hpath as [Hne Hpath]. rewrite Hother by done. by apply lookup_delete_ne.
    + by rewrite Htr, <- app_assoc.
    + unfold unlinked in *. rewrite omap_app, Hun. done.
Qed.

(** The outcome of the whole function, from that of the loop. *)
Lemma insert_hustle_marble_loop stream cols w w1 lines parts :
  hustle_setup H = None →
  table_insert H (marble_row H (marble_field_names H cols) <$> stream) w =
    (w1, Ok (lines, Some parts)) →
  insert_hustle_marble H stream job_id cols w =
    for_each parts (push_partition H job_id) w1.
Proof.
  intros Hs Hins. unfold insert_hustle_marble. unfold_py. by rewrite Hs, Hins.
Qed.


(** X19: when a push is refused, the marble insertion raises that error;
    the files of the partitions before it were pushed and removed, and the
    file of the refused partition and those of the later partitions are left
    on disk. *)
Theorem insert_hustle_marble_push_refused stream cols w w1 lines pre part file_ post e :
  hustle_setup H = None →
  table_insert H (marble_row H (marble_field_names H cols) <$> stream) w =
    (w1, Ok (lines, Some (pre ++ (part, file_) :: post))) →
  (∀ pf, pf ∈ pre → ddfs_push H (part_tag (table_tag_name H) pf.1) [pf.2] = None) →
  ddfs_push H (part_tag (table_tag_name H) part) [file_] = Some e →
  NoDup (pre ++ (part, file_) :: post).*2 →
  (∀ pf, pf ∈ pre → is_Some (fs w1 !! pf.2)) →
  ∃ w',
    insert_hustle_marble H stream job_id cols w = (w', Raise e) ∧
    (∀ pf, pf ∈ pre → fs w' !! pf.2 = None) ∧
    (∀ pf, pf ∈ (part, file_) :: post → fs w' !! pf.2 = fs w1 !! pf.2).
Proof.
  intros Hs Hins Hpush Hrefused Hnd Hex.
  rewrite (insert_hustle_marble_loop _ _ _ _ _ _ Hs Hins).
  rewrite fmap_app in Hnd. apply NoDup_app in Hnd as (Hnd & Hdisj & _).
  destruct (push_loop_ok pre w1 Hpush Hnd Hex)
    as (w' & evs & Hrun & Hgone & Hother & _).
  exists w'. rewrite for_each_app, Hrun, for_each_cons.
  rewrite (push_partition_refused part file_ w' e Hrefused).
  split_and!; [done|done|].
  intros pf Hpf. apply Hother. intros Hin. by apply (Hdisj pf.2 Hin), list_elem_of_fmap_2.
Qed.

(** X20: unlike the loader, the marble insertion does not catch the error
    of a removal: when the file of a partition is not there, the call raises
    [OSError] after the tag of that partition was pushed, and the later
    partitions are neither pushed nor removed. *)
Theorem insert_hustle_marble_missing_file stream cols w w1 lines pre part file_ post :
  hustle_setup H = None →
  table_insert H (marble_row H (marble_field_names H cols) <$> stream) w =
    (w1, Ok (lines, Some (pre ++ (part, file_) :: post))) →
  (∀ pf, pf ∈ pre ++ [(part, file_)] →
         ddfs_push H (part_tag (table_tag_name H) pf.1) [pf.2] = None) →
  NoDup (pre ++ (part, file_) :: post).*2 →
  (∀ pf, pf ∈ pre → is_Some (fs w1 !! pf.2)) →
  fs w1 !! file_ = None →
  ∃ w' e evs,
    insert_hustle_marble H stream job_id cols w = (w', Raise e) ∧
    exn_cls e = OSError ∧
    trace w' = trace w1 ++ evs ∧ unlinked evs = pre.*2 ++ [file_] ∧
    (∀ pf, pf ∈ post → fs w' !! pf.2 = fs w1 !! pf.2).
Proof.
  intros Hs Hins Hpush Hnd Hex Hmissing.
  rewrite (insert_hustle_marble_loop _ _ _ _ _ _ Hs Hins).
  rewrite fmap_app in Hnd. apply NoDup_app in Hnd as (Hnd & Hdisj & _).
  destruct (push_loop_ok pre w1) as (w2 & evs & Hrun & Hgone & Hother & _ & Htr & Hun);
    [intros pf Hpf; apply Hpush, elem_of_app; by left|done..|].
  destruct (push_partition_missing part file_ w2) as (w' & e & Hstep & Hcls & Hfs & Htr').
  { apply (Hpush (part, file_)), elem_of_app. right. by left. }
  { rewrite Hother; [done|]. intros Hin. apply (Hdisj file_ Hin). by left. }
  exists w', e. eexists (evs ++ _). rewrite for_each_app, Hrun, for_each_cons, Hstep.
  split_and!; try done.
  - by rewrite Htr', Htr, <- app_assoc.
  - unfold unlinked in *. rewrite omap_app, Hun. done.
  - intros pf Hpf. rewrite Hfs. apply Hother. intros Hin. apply (Hdisj pf.2 Hin).
    right. by apply list_elem_of_fmap_2.
Qed.

End MarbleFacts.

(** ** The further properties at the scenarios *)

(** X4 at [Cases.unknown_stream]: the second record has the partition key
    [nope] without keyset; [/tmp/t1] is still open. *)
Lemma build_datafiles_unknown_key_witness :
  ∃ e evs,
    _build_datafiles (Demo.demo_env true) Cases.unknown_stream Demo.demo_params "job1"
      Demo.world0 = (Cases.one_read, Raise e) ∧
    exn_cls e = KeyError ∧ still_open evs = ["/tmp/t1"].
Proof.
  destruct (build_datafiles_unknown_key (Demo.demo_env true) Demo.demo_params "job1"
              (take 1 Demo.demo_stream) [PStr "nope"; PStr "x"] [PInt 9]
              [([PStr "t1"; PStr "b"], [PInt 2])] (PStr "nope") Demo.world0
              Cases.one_read Cases.one_read_locals)
    as (e & evs & Hrun & Hcls & _ & Hopen & _).
  - vm_compute. reflexivity.
  - reflexivity.
  - vm_compute. intros [=].
  - vm_compute. reflexivity.
  - exists e, evs. split; [exact Hrun|]. split; [exact Hcls|exact Hopen].
Defined.

(** X5 at [Cases.int_stream]: the second record has the partition key [7],
    which has a keyset; [/tmp/t1] is closed and nothing is opened. *)
Lemma build_datafiles_key_not_a_string_witness :
  ∃ e w2,
    _build_datafiles (Demo.demo_env true) Cases.int_stream Cases.int_params "job1"
      Demo.world0 = (w2, Raise e) ∧
    exn_cls e = TypeError ∧
    fs w2 = fs Cases.one_read ∧ trace w2 = trace Cases.one_read ++ [EvClose "/tmp/t1"].
Proof.
  destruct (build_datafiles_key_not_a_string (Demo.demo_env true) Cases.int_params "job1"
              (take 1 Demo.demo_stream) [PInt 7; PStr "x"] [PInt 9] [] (PInt 7)
              Demo.events Demo.world0 Cases.one_read Cases.one_read_locals)
    as (e & w2 & Hrun & Hcls & Hfs & Htr).
  - vm_compute. reflexivity.
  - reflexivity.
  - vm_compute. intros [=].
  - vm_compute. reflexivity.
  - intros s [=].
  - exists e, w2. split; [exact Hrun|]. split; [exact Hcls|]. split; [exact Hfs|exact Htr].
Defined.

Lemma demo_build :
  _build_datafiles (Demo.demo_env true) Demo.demo_stream Demo.demo_params "job1" Demo.world0
    = (Demo.demo_world, Ok (Demo.demo_files, 3)).
Proof. vm_compute. reflexivity. Qed.

Lemma demo_upload :
  _upload_s3 (Demo.demo_env true) Demo.demo_files "job1" (Some "infernyx") Demo.demo_world
    = (Cases.staged_world, Ok (staged "job1" (Some "infernyx") <$> Demo.demo_files)).
Proof. vm_compute. reflexivity. Qed.

(** X6 at the scenario. *)
Lemma build_datafiles_fresh_files_witness :
  NoDup (tempfile <$> Demo.demo_files) ∧
  (∀ df, df ∈ Demo.demo_files →
     fs Demo.world0 !! tempfile df = None ∧ is_Some (fs Demo.demo_world !! tempfile df)) ∧
  (∀ path, path ∉ tempfile <$> Demo.demo_files →
     fs Demo.demo_world !! path = fs Demo.world0 !! path) ∧
  db Demo.demo_world = db Demo.world0 ∧ session Demo.demo_world = session Demo.world0 ∧
  bucket_store Demo.demo_world = bucket_store Demo.world0.
Proof.
  exact (build_datafiles_fresh_files (Demo.demo_env true) Demo.demo_params "job1"
           Demo.demo_stream Demo.world0 Demo.demo_world Demo.demo_files 3
           (demo_env_fresh true) demo_build).
Defined.

(** X7 at the scenario. *)
Lemma insert_datafiles_frame_witness :
  ∃ w' r,
    _insert_datafiles (Demo.demo_env true) Demo.warehouse Demo.demo_files Demo.demo_params
      "job1" 3 EmptyString Demo.demo_world = (w', r) ∧
    (∀ path, path ∉ tempfile <$> Demo.demo_files →
       fs w' !! path = fs Demo.demo_world !! path) ∧
    bucket_store w' = bucket_store Demo.demo_world.
Proof.
  apply (insert_datafiles_frame (Demo.demo_env true) Demo.demo_params "job1"
           Demo.warehouse Demo.demo_files 3 EmptyString Demo.demo_world).
  vm_compute. reflexivity.
Defined.

(** X8 at the first batch file of the scenario. *)
Lemma build_datafiles_local_sources_witness :
  s3 (mkDataFile "/tmp/t1" (None, None) "orders" "b,val") = (None, None) ∧
  copy_command (mkDataFile "/tmp/t1" (None, None) "orders" "b,val") EmptyString =
    "COPY " +:+ "orders" +:+ " (" +:+ "b,val" +:+ ") FROM '" +:+ "/tmp/t1" +:+
    "' WITH " +:+ EmptyString +:+ " JSON 'auto' TRUNCATECOLUMNS GZIP".
Proof.
  apply (build_datafiles_local_sources (Demo.demo_env true) Demo.demo_params "job1"
           Demo.demo_stream Demo.world0 Demo.demo_world Demo.demo_files 3 EmptyString
           demo_build (mkDataFile "/tmp/t1" (None, None) "orders" "b,val")).
  by left.
Defined.

(** X9 at the scenario: three records loaded, no file left. *)
Lemma insert_postgres_effect_witness :
  ∃ w',
    insert_postgres (Demo.demo_env true) Demo.demo_stream Demo.demo_params "job1"
      "warehouse" (Some "stats") "etl" None Demo.world0 = (w', Ok 3) ∧
    fs w' = fs Demo.world0 ∧ session w' = None.
Proof.
  destruct (insert_postgres_effect (Demo.demo_env true) Demo.demo_params "job1"
              Demo.demo_stream "warehouse" (Some "stats") "etl" None Demo.world0
              Demo.demo_world Demo.demo_files 3 (demo_env_fresh true) eq_refl demo_build)
    as (w' & Hrun & _ & Hfs & Hse).
  - vm_compute. reflexivity.
  - assert (load_outcome (Demo.demo_env true) Demo.demo_files EmptyString Demo.demo_world
            = Ok ()) as Hout by (vm_compute; reflexivity).
    rewrite Hout in Hrun. exists w'. split; [exact Hrun|]. split; [exact Hfs|exact Hse].
Defined.

(** X10 at the scenario with a host that cannot be reached. *)
Lemma insert_postgres_connect_fails_witness :
  insert_postgres (Demo.demo_env true) Demo.demo_stream Demo.demo_params "job1"
    "down" (Some "stats") "etl" None Demo.world0
    = (Demo.demo_world, Raise (Exn DatabaseError "could not connect to server")) ∧
  (∀ df, df ∈ Demo.demo_files → is_Some (fs Demo.demo_world !! tempfile df)) ∧
  db Demo.demo_world = db Demo.world0.
Proof.
  apply (insert_postgres_connect_fails (Demo.demo_env true) Demo.demo_params "job1"
           Demo.demo_stream "down" (Some "stats") "etl" None Demo.world0 Demo.demo_world
           Demo.demo_files 3 (Exn DatabaseError "could not connect to server") demo_build).
  vm_compute. reflexivity.
Defined.

(** X12 at the scenario. *)
Lemma upload_s3_stores_witness :
  (∀ df, df ∈ Demo.demo_files →
     is_Some (fs Demo.demo_world !! tempfile df) ∧
     bucket_store Cases.staged_world !! (Some "infernyx", "job1" +:+ "-" +:+ tempfile df) =
     fs Demo.demo_world !! tempfile df) ∧
  (∀ k, k ∉ (λ df, (Some "infernyx", "job1" +:+ "-" +:+ tempfile df)) <$> Demo.demo_files →
     bucket_store Cases.staged_world !! k = bucket_store Demo.demo_world !! k) ∧
  fs Cases.staged_world = fs Demo.demo_world ∧ db Cases.staged_world = db Demo.demo_world.
Proof.
  exact (upload_s3_stores (Demo.demo_env true) "job1" (Some "infernyx") Demo.demo_files
           Demo.demo_world Cases.staged_world _ demo_upload).
Defined.

(** X13 at the first batch file of the scenario followed by one whose
    file is not there. *)
Lemma upload_s3_missing_file_witness :
  ∃ w' e,
    _upload_s3 (Demo.demo_env true)
      ([mkDataFile "/tmp/t1" (None, None) "orders" "b,val"] ++ Cases.gone_file :: [])
      "job1" (Some "infernyx") Demo.demo_world = (w', Raise e) ∧
    exn_cls e = IOError ∧
    (∀ df', df' ∈ [mkDataFile "/tmp/t1" (None, None) "orders" "b,val"] →
       bucket_store w' !! (Some "infernyx", "job1" +:+ "-" +:+ tempfile df') =
       fs Demo.demo_world !! tempfile df') ∧
    fs w' = fs Demo.demo_world.
Proof.
  apply (upload_s3_missing_file (Demo.demo_env true) "job1" (Some "infernyx")
           [mkDataFile "/tmp/t1" (None, None) "orders" "b,val"] Cases.gone_file []
           Demo.demo_world).
  - intros df' ->%list_elem_of_singleton. vm_compute. by eexists.
  - intros key content md5. reflexivity.
  - vm_compute. reflexivity.
Defined.

(** X15 at the scenario: three records loaded from the store, the objects
    kept, no local file left. *)
Lemma insert_redshift_effect_witness :
  ∃ w',
    insert_redshift (Demo.demo_env true) Demo.demo_stream Demo.demo_params "job1"
      Demo.warehouse (Some "infernyx") Demo.world0 = (w', Ok 3) ∧
    fs w' = fs Demo.world0 ∧
    bucket_store w' = bucket_store Cases.staged_world.
Proof.
  destruct (insert_redshift_effect (Demo.demo_env true) Demo.demo_params "job1"
              Demo.demo_stream Demo.warehouse (Some "infernyx") Demo.world0
              Demo.demo_world Demo.demo_files 3 Cases.staged_world _
              "AKIA" "secret" "token" (demo_env_fresh true) eq_refl demo_build demo_upload
              eq_refl)
    as (w' & Hrun & _ & Hfs & _ & Hbs & _).
  - vm_compute. reflexivity.
  - match type of Hrun with _ = (_, match ?o with _ => _ end) =>
      assert (o = Ok ()) as Hout by (vm_compute; reflexivity) end.
    rewrite Hout in Hrun. exists w'. split; [exact Hrun|]. split; [exact Hfs|exact Hbs].
Defined.

Lemma marbles_nodup : NoDup Cases.marbles.*2.
Proof.
  apply NoDup_cons. split; [|apply NoDup_singleton].
  intros [=]%list_elem_of_singleton.
Qed.


(** X19 at a table with two marble files and a store that refuses. *)
Lemma insert_hustle_marble_push_refused_witness :
  ∃ w',
    insert_hustle_marble (Cases.demo_hustle false) [] "job1" None Demo.world0
      = (w', Raise (Exn IOError "ddfs is down")) ∧
    (∀ pf, pf ∈ Cases.marbles → fs w' !! pf.2 = fs Cases.marble_world !! pf.2).
Proof.
  destruct (insert_hustle_marble_push_refused (Cases.demo_hustle false) "job1" [] None
              Demo.world0 Cases.marble_world 0 [] (PStr "2014-01-01") "/tmp/marble1"
              [(PStr "2014-01-02", "/tmp/marble2")] (Exn IOError "ddfs is down"))
    as (w' & Hrun & _ & Hkept).
  - reflexivity.
  - reflexivity.
  - by intros pf ?%elem_of_nil.
  - reflexivity.
  - exact marbles_nodup.
  - by intros pf ?%elem_of_nil.
  - exists w'. split; [exact Hrun|exact Hkept].
Defined.

(** X20 at a table whose second marble file is not there. *)
Lemma insert_hustle_marble_missing_file_witness :
  ∃ w' e evs,
    insert_hustle_marble Cases.lost_hustle [] "job1" None Demo.world0 = (w', Raise e) ∧
    exn_cls e = OSError ∧
    unlinked evs = ["/tmp/marble1"; "/tmp/marble2"].
Proof.
  destruct (insert_hustle_marble_missing_file Cases.lost_hustle "job1" [] None
              Demo.world0 Cases.lost_world 0 [(PStr "2014-01-01", "/tmp/marble1")]
              (PStr "2014-01-02") "/tmp/marble2" [])
    as (w' & e & evs & Hrun & Hcls & _ & Hun & _).
  - reflexivity.
  - reflexivity.
  - intros pf _. reflexivity.
  - exact marbles_nodup.
  - intros pf ->%list_elem_of_singleton. vm_compute. by eexists.
  - vm_compute. reflexivity.
  - exists w', e, evs. split; [exact Hrun|]. split; [exact Hcls|exact Hun].
Defined.
